(** * klink_indicator: the three-colour status LED of the klink_kbd shield

    A shallow embedding of
    [config/boards/shields/klink_kbd/src/klink_indicator.c]: the shared
    [indicator_state] record, the event listeners that write it, the
    memoising colour setter and the body of the 20 ms blink loop, followed
    by the properties of the natural-language specification.

    Unsigned C integers are [Z] values with the wrap-around written out
    ([u8], [u16]); bit tests use [Z.land] and [Z.shiftr] as the source does.
    Listeners and loop iterations are interleaved at the granularity of one
    whole handler or one whole loop iteration. *)

From Stdlib Require Import ZArith List Bool Lia.
Import ListNotations.
Local Open Scope Z_scope.

(** ** Machine integers *)

Definition u8 (z : Z) : Z := z mod 256.
Definition u16 (z : Z) : Z := z mod 65536.

Definition BIT (n : Z) : Z := Z.shiftl 1 n.
Definition NUMLOCK_BIT : Z := BIT 0.
Definition CAPSLOCK_BIT : Z := BIT 1.
Definition SCROLLLOCK_BIT : Z := BIT 2.

(** ** The LED driver

    The three devicetree aliases and the two driver entry points the module
    calls.  [led_idx] is the table of the source: position 0 is the red
    LED, 1 the green one, 2 the blue one. *)

Inductive led_alias : Type := indicator_r | indicator_g | indicator_b.

Inductive led_call : Type :=
| led_on (idx : led_alias)
| led_off (idx : led_alias).

Definition led_idx (pos : Z) : led_alias :=
  nth (Z.to_nat pos) [indicator_r; indicator_g; indicator_b] indicator_b.

(** ** Indicator state *)

Record indicator_state_t : Type := mk_indicator_state {
  keylock : Z;
  connection : Z;
  active_device : Z;
  battery : Z;
  flash_times : Z
}.

Definition set_keylock (v : Z) (st : indicator_state_t) : indicator_state_t :=
  mk_indicator_state v (connection st) (active_device st) (battery st) (flash_times st).
Definition set_connection (v : Z) (st : indicator_state_t) : indicator_state_t :=
  mk_indicator_state (keylock st) v (active_device st) (battery st) (flash_times st).
Definition set_active_device (v : Z) (st : indicator_state_t) : indicator_state_t :=
  mk_indicator_state (keylock st) (connection st) v (battery st) (flash_times st).
Definition set_battery (v : Z) (st : indicator_state_t) : indicator_state_t :=
  mk_indicator_state (keylock st) (connection st) (active_device st) v (flash_times st).
Definition set_flash_times (v : Z) (st : indicator_state_t) : indicator_state_t :=
  mk_indicator_state (keylock st) (connection st) (active_device st) (battery st) v.

(** The whole mutable store of the module: the global record and the two
    function-local statics ([led_timer_steps] of the loop, [last_bits] of
    the colour setter).  All of it is zero-initialised. *)

Record machine : Type := mk_machine {
  indicator_state : indicator_state_t;
  led_timer_steps : Z;
  last_bits : Z
}.

Definition with_state (st : indicator_state_t) (m : machine) : machine :=
  mk_machine st (led_timer_steps m) (last_bits m).
Definition with_steps (s : Z) (m : machine) : machine :=
  mk_machine (indicator_state m) s (last_bits m).
Definition with_last_bits (b : Z) (m : machine) : machine :=
  mk_machine (indicator_state m) (led_timer_steps m) b.

Definition zero_state : indicator_state_t := mk_indicator_state 0 0 0 0 0.
Definition zero_machine : machine := mk_machine zero_state 0 0.

(** ** What the module asks of ZMK and Zephyr *)

Record bt_addr_le_t : Type := mk_addr {
  addr_type : Z;
  addr_val : list Z
}.

Definition BT_ADDR_LE_ANY : bt_addr_le_t := mk_addr 0 [0; 0; 0; 0; 0; 0].

Fixpoint bytes_eqb (a b : list Z) : bool :=
  match a, b with
  | [], [] => true
  | x :: a', y :: b' => (x =? y) && bytes_eqb a' b'
  | _, _ => false
  end.

Definition bt_addr_le_eq (a b : bt_addr_le_t) : bool :=
  (addr_type a =? addr_type b) && bytes_eqb (addr_val a) (addr_val b).

(** The answers of the HID and BLE subsystems at the moment a handler or a
    loop iteration runs. *)

Record zmk_t : Type := mk_zmk {
  zmk_hid_indicators_get_current_profile : Z;
  zmk_ble_active_profile_index : Z;
  zmk_ble_active_profile_is_connected : bool;
  zmk_ble_active_profile_addr : bt_addr_le_t
}.

Inductive zmk_event_t : Type :=
| zmk_hid_indicators_changed
| zmk_ble_active_profile_changed
| zmk_keycode_state_changed (keycode : Z)
| zmk_battery_state_changed (state_of_charge : Z).

Definition as_zmk_keycode_state_changed (eh : zmk_event_t) : option Z :=
  match eh with
  | zmk_keycode_state_changed keycode => Some keycode
  | _ => None
  end.

Definition ZMK_EV_EVENT_HANDLED : Z := 1.

(** ** Colour setter *)

(** One call of [set_indicator_color]: the mask it was given and the driver
    calls it made, in order. *)
Inductive color_call : Type :=
| SetColor (bits : Z) (hw : list led_call).

Definition call_bits (c : color_call) : Z :=
  match c with SetColor bits _ => bits end.
Definition call_hw (c : color_call) : list led_call :=
  match c with SetColor _ hw => hw end.

Definition led_write (bits pos : Z) : led_call :=
  if negb (Z.land bits (Z.shiftl 1 pos) =? 0)
  then led_on (led_idx pos)
  else led_off (led_idx pos).

Definition set_indicator_color (bits : Z) (m : machine) : machine * list color_call :=
  if negb (bits =? last_bits m) then
    let hw := map (led_write bits) [0; 1; 2] in
    (with_last_bits bits m, [SetColor bits hw])
  else
    (m, [SetColor bits []]).

(** ** Event listeners *)

Definition get_lock_indicators (z : zmk_t) (st : indicator_state_t) : indicator_state_t :=
  let state := u8 (zmk_hid_indicators_get_current_profile z) in
  set_keylock state st.

Definition hid_indicators_status_update_cb (z : zmk_t) (st : indicator_state_t)
  : indicator_state_t :=
  get_lock_indicators z st.

Definition ble_active_profile_update (z : zmk_t) (st : indicator_state_t)
  : indicator_state_t :=
  let profile_index := u8 (zmk_ble_active_profile_index z) in
  if 3 <? profile_index then st
  else
    let st := set_active_device profile_index st in
    if zmk_ble_active_profile_is_connected z
    then set_flash_times (3 * 4) (set_connection 2 st)
    else set_flash_times (15 * 4) (set_connection 1 st).

Definition ble_active_profile_update_cb (z : zmk_t) (st : indicator_state_t)
  : indicator_state_t :=
  ble_active_profile_update z st.

Definition zmk_handle_keycode_user (key : Z) (z : zmk_t) (st : indicator_state_t)
  : indicator_state_t * Z :=
  ((if key =? 0xAB then ble_active_profile_update z st else st),
   ZMK_EV_EVENT_HANDLED).

Definition keycode_user_listener (eh : zmk_event_t) (z : zmk_t) (st : indicator_state_t)
  : indicator_state_t * Z :=
  match as_zmk_keycode_state_changed eh with
  | Some kc_state => zmk_handle_keycode_user kc_state z st
  | None => (st, 0)
  end.

Definition led_battery_listener_cb (state_of_charge : Z) (st : indicator_state_t)
  : indicator_state_t * Z :=
  let battery_level := u8 state_of_charge in
  (set_battery battery_level st, 0).

(** The subscriptions: which listener an event reaches. *)
Definition dispatch (eh : zmk_event_t) (z : zmk_t) (st : indicator_state_t)
  : indicator_state_t :=
  match eh with
  | zmk_hid_indicators_changed => hid_indicators_status_update_cb z st
  | zmk_ble_active_profile_changed => ble_active_profile_update_cb z st
  | zmk_keycode_state_changed _ => fst (keycode_user_listener eh z st)
  | zmk_battery_state_changed soc => fst (led_battery_listener_cb soc st)
  end.

(** ** Startup task *)

Definition klink_indicator_init_thread (st : indicator_state_t) : indicator_state_t :=
  set_battery 111 (set_connection 1 st).

(** ** Blink sequencer *)

Definition profile_color_bits (i : Z) : Z :=
  nth (Z.to_nat i) [0x3; 0x6; 0x5] 0.

(** How one pass through the body of [while (true)] ends: the loop goes
    round again, or the function returns. *)
Inductive loop_result : Type :=
| Continue (m : machine)
| Return (m : machine).

Definition result_machine (r : loop_result) : machine :=
  match r with Continue m => m | Return m => m end.

Definition no_call (m : machine) : machine * list color_call := (m, []).

Definition led_process_iteration (z : zmk_t) (m0 : machine)
  : loop_result * list color_call :=
  let m := with_steps (u16 (led_timer_steps m0 + 1)) m0 in
  let steps := led_timer_steps m in
  let st := indicator_state m in
  if 0 <? connection st then
    if 3 <=? active_device st then (Return m, [])
    else if Z.land steps 0xf =? 0xf then
      let st1 := set_flash_times (u8 (flash_times st - 1)) st in
      let color_bits := profile_color_bits (active_device st1) in
      let '(m1, out) :=
        match Z.land (Z.shiftr steps 4) 0x3 with
        | 0 => set_indicator_color 0 (with_state st1 m)
        | 1 => set_indicator_color color_bits (with_state st1 m)
        | 2 =>
            if negb (connection st1 =? 2)
            then set_indicator_color 0 (with_state st1 m)
            else no_call (with_state st1 m)
        | 3 =>
            if negb (connection st1 =? 2) then
              let addr := zmk_ble_active_profile_addr z in
              if bt_addr_le_eq addr BT_ADDR_LE_ANY
              then set_indicator_color 0x1 (with_state st1 m)
              else set_indicator_color 0x4 (with_state st1 m)
            else no_call (with_state st1 m)
        | _ => no_call (with_state st1 m)
        end in
      let st2 := indicator_state m1 in
      if flash_times st2 =? 0
      then (Continue (with_state (set_connection 0 st2) m1), out)
      else (Continue m1, out)
    else (Continue m, [])
  else if battery st <? 10 then
    if Z.land steps 0x1f =? 0xf then
      let '(m1, out) := set_indicator_color 0x1 m in (Continue m1, out)
    else if Z.land steps 0x1f =? 0x1f then
      let '(m1, out) := set_indicator_color 0 m in (Continue m1, out)
    else (Continue m, [])
  else
    if negb (Z.land (keylock st) CAPSLOCK_BIT =? 0) then
      let '(m1, out) := set_indicator_color 0x5 m in (Continue m1, out)
    else
      let '(m1, out) := set_indicator_color 0 m in (Continue m1, out).

(** [led_process_thread]: the loop, run for as many iterations as there are
    snapshots of the environment, with nothing else scheduled in between.
    [Continue] at the end means the loop is still running. *)
Fixpoint led_process_thread (zs : list zmk_t) (m : machine)
  : loop_result * list color_call :=
  match zs with
  | [] => (Continue m, [])
  | z :: zs' =>
      match led_process_iteration z m with
      | (Return m', out) => (Return m', out)
      | (Continue m', out) =>
          let '(r, out') := led_process_thread zs' m' in (r, out ++ out')
      end
  end.

(** ** The module among its callers

    What can happen to the module: an event reaches its listeners, the
    startup task runs, or the blink thread wakes from its 20 ms sleep.  A
    thread that has returned never wakes again. *)

Inductive input : Type :=
| Event (eh : zmk_event_t)
| InitThread
| Tick.

Record system : Type := mk_system {
  mach : machine;
  led_process_alive : bool
}.

Definition boot : system := mk_system zero_machine true.

Definition step (zi : zmk_t * input) (s : system) : system * list color_call :=
  let '(z, i) := zi in
  match i with
  | Event eh =>
      (mk_system (with_state (dispatch eh z (indicator_state (mach s))) (mach s))
                 (led_process_alive s), [])
  | InitThread =>
      (mk_system (with_state (klink_indicator_init_thread (indicator_state (mach s)))
                             (mach s))
                 (led_process_alive s), [])
  | Tick =>
      if led_process_alive s then
        match led_process_iteration z (mach s) with
        | (Continue m', out) => (mk_system m' true, out)
        | (Return m', out) => (mk_system m' false, out)
        end
      else (s, [])
  end.

Fixpoint run (zis : list (zmk_t * input)) (s : system) : system * list color_call :=
  match zis with
  | [] => (s, [])
  | zi :: rest =>
      let '(s1, out1) := step zi s in
      let '(s2, out2) := run rest s1 in
      (s2, out1 ++ out2)
  end.

(** ** The specification's vocabulary

    Definitions that follow the words of the specification, to be compared
    with the code above. *)

(** Every field fits the unsigned type the source declares for it. *)
Definition wf_state (st : indicator_state_t) : Prop :=
  0 <= keylock st < 256 /\ 0 <= connection st < 256 /\
  0 <= active_device st < 256 /\ 0 <= battery st < 256 /\
  0 <= flash_times st < 256.

Definition wf (m : machine) : Prop :=
  wf_state (indicator_state m) /\ 0 <= led_timer_steps m < 65536.

(** The value of the tick counter as the iteration that starts in [m]
    evaluates it (the counter is incremented first). *)
Definition tick_of (m : machine) : Z := u16 (led_timer_steps m + 1).

Definition boundary16 (t : Z) : bool := t mod 16 =? 15.
Definition phase (t : Z) : Z := (t / 16) mod 4.

Inductive mode : Type := BleAnimating | LowBattery | LockIndicator.

Definition spec_mode (st : indicator_state_t) : mode :=
  if connection st =? 0 then
    if battery st <? 10 then LowBattery else LockIndicator
  else BleAnimating.

Definition spec_palette (slot : Z) : Z :=
  if slot =? 0 then 3 else if slot =? 1 then 6 else 5.

(** The masks handed to the colour setter on tick [t], mode by mode. *)
Definition spec_ble_bits (z : zmk_t) (st : indicator_state_t) (t : Z) : list Z :=
  if boundary16 t then
    if phase t =? 0 then [0]
    else if phase t =? 1 then [spec_palette (active_device st)]
    else if connection st =? 2 then []
    else if phase t =? 2 then [0]
    else if bt_addr_le_eq (zmk_ble_active_profile_addr z) BT_ADDR_LE_ANY
         then [1] else [4]
  else [].

Definition spec_battery_bits (t : Z) : list Z :=
  if t mod 32 =? 15 then [1] else if t mod 32 =? 31 then [0] else [].

Definition spec_lock_bits (st : indicator_state_t) : list Z :=
  [if Z.testbit (keylock st) 1 then 5 else 0].

Definition spec_bits (z : zmk_t) (st : indicator_state_t) (t : Z) : list Z :=
  match spec_mode st with
  | BleAnimating => spec_ble_bits z st t
  | LowBattery => spec_battery_bits t
  | LockIndicator => spec_lock_bits st
  end.

(** ** Auxiliary definitions used in the statements and proofs *)

(** The [switch] of the BLE branch on its own, for the phase [p] and the
    machine [m] in which [flash_times] is already decremented. *)
Definition ble_switch (z : zmk_t) (m : machine) (p : Z) : machine * list color_call :=
  let st1 := indicator_state m in
  match p with
  | 0 => set_indicator_color 0 m
  | 1 => set_indicator_color (profile_color_bits (active_device st1)) m
  | 2 => if negb (connection st1 =? 2) then set_indicator_color 0 m else no_call m
  | 3 =>
      if negb (connection st1 =? 2) then
        if bt_addr_le_eq (zmk_ble_active_profile_addr z) BT_ADDR_LE_ANY
        then set_indicator_color 0x1 m
        else set_indicator_color 0x4 m
      else no_call m
  | _ => no_call m
  end.

(** The indicator state a BLE boundary leaves behind. *)
Definition spec_ble_decrement (st : indicator_state_t) : indicator_state_t :=
  let f := u8 (flash_times st - 1) in
  if f =? 0 then set_connection 0 (set_flash_times f st) else set_flash_times f st.

(** Overwriting the fields the lower-priority modes read. *)
Definition with_battery_keylock (b k : Z) (m : machine) : machine :=
  with_state (set_battery b (set_keylock k (indicator_state m))) m.

Definition with_keylock (k : Z) (m : machine) : machine :=
  with_state (set_keylock k (indicator_state m)) m.

Definition on_result (f : machine -> machine) (r : loop_result * list color_call)
  : loop_result * list color_call :=
  match r with
  | (Continue m, out) => (Continue (f m), out)
  | (Return m, out) => (Return (f m), out)
  end.

Definition still_looping (r : loop_result) : bool :=
  match r with Continue _ => true | Return _ => false end.

(** The machine right after the startup task, on a module that has not
    seen any event yet. *)
Definition started_machine : machine :=
  with_state (klink_indicator_init_thread zero_state) zero_machine.

(** Driver calls of a trace, and how many of them address one LED. *)
Definition hw_writes (out : list color_call) : list led_call :=
  flat_map call_hw out.

Definition addresses (ch : led_alias) (c : led_call) : bool :=
  match c, ch with
  | led_on indicator_r, indicator_r | led_off indicator_r, indicator_r
  | led_on indicator_g, indicator_g | led_off indicator_g, indicator_g
  | led_on indicator_b, indicator_b | led_off indicator_b, indicator_b => true
  | _, _ => false
  end.

Definition writes_to (ch : led_alias) (hw : list led_call) : nat :=
  length (filter (addresses ch) hw).

(** De-duplication channel by channel, as C3 words it: after mask [m1],
    mask [m2] writes a channel once if its bit differs and not at all if it
    does not. *)
Definition per_channel_dedup (m : machine) (m1 m2 : Z) : Prop :=
  forall pos, In pos [0; 1; 2] ->
    writes_to (led_idx pos)
      (hw_writes (snd (set_indicator_color m2 (fst (set_indicator_color m1 m)))))
    = if Bool.eqb (Z.testbit m1 pos) (Z.testbit m2 pos) then 0%nat else 1%nat.

(** The driver call that puts channel [pos] in the state mask [bits] asks for. *)
Definition spec_write (bits pos : Z) : led_call :=
  if Z.testbit bits pos then led_on (led_idx pos) else led_off (led_idx pos).

(** Number of ticks [t] among the [n] that follow counter value [s] with
    [t mod 16 = 15]. *)
Definition boundaries (s n : Z) : Z :=
  (s mod 16 + n + 1) / 16 - (s mod 16 + 1) / 16.

(** Boundaries a BLE animation still covers when the counter reads [f]:
    the decrement comes before the comparison with 0. *)
Definition remaining (f : Z) : Z := if f =? 0 then 256 else f.

(** The BLE animation that is running in [m] lasts [N] quarter-cycles: left
    to itself, the loop resets [connection] on the [N]-th 16-tick boundary
    from [m]. *)
Definition ble_mode_ends_at (m : machine) (N : Z) : Prop :=
  forall zs z,
    let n := Z.of_nat (length zs) in
    boundaries (led_timer_steps m) n = N - 1 ->
    boundary16 (u16 (led_timer_steps m + n + 1)) = true ->
    connection (indicator_state (result_machine (fst (led_process_thread (zs ++ [z]) m))))
    = 0.

(** ** Further vocabulary: reachable states, the LEDs themselves *)

(** The masks the module ever hands to the colour setter. *)
Definition palette_masks : list Z := [0; 1; 3; 4; 5; 6].

Definition reach_inv (s : system) : Prop :=
  wf (mach s)
  /\ connection (indicator_state (mach s)) <= 2
  /\ active_device (indicator_state (mach s)) <= 3
  /\ In (last_bits (mach s)) palette_masks.

(** What a colour-setter call can have done to a machine whose [last_bits]
    was [l]: nothing at all, or one call with a palette mask [b] that is now
    [last_bits], with the three driver writes unless [b] was applied already. *)
Definition call_shape (l : Z) (mo : machine * list color_call) : Prop :=
  (snd mo = [] /\ last_bits (fst mo) = l)
  \/ (exists b, In b palette_masks
                /\ snd mo = [SetColor b (if b =? l then []
                                         else [spec_write b 0; spec_write b 1;
                                               spec_write b 2])]
                /\ last_bits (fst mo) = b).

(** The three LEDs as the driver leaves them: [led_on] lights the LED it
    names, [led_off] darkens it, the others keep their state. *)
Record leds : Type := mk_leds {
  lit_r : bool;
  lit_g : bool;
  lit_b : bool
}.

Definition led_apply (l : leds) (c : led_call) : leds :=
  match c with
  | led_on indicator_r => mk_leds true (lit_g l) (lit_b l)
  | led_on indicator_g => mk_leds (lit_r l) true (lit_b l)
  | led_on indicator_b => mk_leds (lit_r l) (lit_g l) true
  | led_off indicator_r => mk_leds false (lit_g l) (lit_b l)
  | led_off indicator_g => mk_leds (lit_r l) false (lit_b l)
  | led_off indicator_b => mk_leds (lit_r l) (lit_g l) false
  end.

Definition leds_after (hw : list led_call) (l : leds) : leds :=
  fold_left led_apply hw l.

Definition leds_of_mask (bits : Z) : leds :=
  mk_leds (Z.testbit bits 0) (Z.testbit bits 1) (Z.testbit bits 2).

(** What the inputs alone make of the [keylock] and [battery] fields. *)
Definition keylock_step (k : Z) (zi : zmk_t * input) : Z :=
  match snd zi with
  | Event zmk_hid_indicators_changed =>
      u8 (zmk_hid_indicators_get_current_profile (fst zi))
  | _ => k
  end.

Definition battery_step (b : Z) (zi : zmk_t * input) : Z :=
  match snd zi with
  | Event (zmk_battery_state_changed soc) => u8 soc
  | InitThread => 111
  | _ => b
  end.

Definition active_device_step (a : Z) (zi : zmk_t * input) : Z :=
  let reported := u8 (zmk_ble_active_profile_index (fst zi)) in
  let updated := if 3 <? reported then a else reported in
  match snd zi with
  | Event zmk_ble_active_profile_changed => updated
  | Event (zmk_keycode_state_changed keycode) =>
      if keycode =? 0xAB then updated else a
  | _ => a
  end.

Definition keylock_after (zis : list (zmk_t * input)) (k : Z) : Z :=
  fold_left keylock_step zis k.

Definition battery_after (zis : list (zmk_t * input)) (b : Z) : Z :=
  fold_left battery_step zis b.

Definition active_device_after (zis : list (zmk_t * input)) (a : Z) : Z :=
  fold_left active_device_step zis a.

(** * Basic facts *)

(** Arithmetic on the wrapped counters, by quotient and remainder. *)
Ltac zmod := unfold tick_of in *; unfold u16, u8 in *; Z.div_mod_to_equations; lia.

(** Name the result of every colour-setter call in the goal and replace the
    machine it returns by what [set_indicator_color_state] says it is. *)
Ltac name_color_calls state_lemma :=
  repeat match goal with
    | |- context [set_indicator_color ?b ?M] =>
        let m1 := fresh "m1" in
        let out := fresh "out" in
        let E := fresh "E" in
        destruct (set_indicator_color b M) as [m1 out] eqn:E;
        apply (f_equal fst) in E; rewrite state_lemma in E;
        cbn [fst] in E; subst m1
    end.


Lemma land_bit_testbit (a n : Z) :
  0 <= n -> (Z.land a (Z.shiftl 1 n) =? 0) = negb (Z.testbit a n).
Proof.
  intros Hn. rewrite Z.shiftl_1_l.
  destruct (Z.testbit a n) eqn:Hb; simpl.
  - apply Z.eqb_neq. intros H0.
    assert (Ht : Z.testbit (Z.land a (2 ^ n)) n = false)
      by (rewrite H0; apply Z.bits_0).
    rewrite Z.land_spec, Hb, Z.pow2_bits_true in Ht by lia. discriminate.
  - apply Z.eqb_eq. apply Z.bits_inj'. intros k Hk.
    rewrite Z.land_spec, Z.bits_0, Z.pow2_bits_eqb by lia.
    destruct (Z.eqb_spec n k) as [->|]; [rewrite Hb|]; auto using andb_false_r.
Qed.

Lemma led_write_spec (bits pos : Z) :
  0 <= pos -> led_write bits pos = spec_write bits pos.
Proof.
  intros Hp. unfold led_write, spec_write.
  rewrite land_bit_testbit by assumption.
  now destruct (Z.testbit bits pos).
Qed.

Lemma land_15 (x : Z) : Z.land x 15 = x mod 16.
Proof. change 15 with (Z.ones 4). now rewrite Z.land_ones by lia. Qed.

Lemma land_31 (x : Z) : Z.land x 31 = x mod 32.
Proof. change 31 with (Z.ones 5). now rewrite Z.land_ones by lia. Qed.

Lemma shiftr4_land3 (x : Z) : Z.land (Z.shiftr x 4) 3 = phase x.
Proof.
  unfold phase. change 3 with (Z.ones 2).
  rewrite Z.land_ones, Z.shiftr_div_pow2 by lia. reflexivity.
Qed.

Lemma phase_range (x : Z) : 0 <= phase x < 4.
Proof. unfold phase. apply Z.mod_pos_bound. lia. Qed.

Lemma set_indicator_color_bits (bits : Z) (m : machine) :
  map call_bits (snd (set_indicator_color bits m)) = [bits].
Proof. unfold set_indicator_color. now destruct (bits =? last_bits m). Qed.

Lemma set_indicator_color_state (bits : Z) (m : machine) :
  fst (set_indicator_color bits m) = with_last_bits bits m.
Proof.
  unfold set_indicator_color.
  destruct (Z.eqb_spec bits (last_bits m)) as [->|]; simpl; [|reflexivity].
  now destruct m.
Qed.

(** * Colour setter *)

(** C3, as amended.  When the mask differs from the one applied last, the
    colour setter writes all three channels, red, green, blue in that
    order, each exactly once: on where the bit of the new mask is set, off
    where it is clear, whether or not that bit changed.  Called again with
    the mask it has just applied it makes no driver call at all. *)
Theorem set_indicator_color_writes_all_or_nothing (m : machine) (m1 m2 : Z) :
  m1 <> m2 ->
  let ma := fst (set_indicator_color m1 m) in
  snd (set_indicator_color m2 ma)
    = [SetColor m2 [spec_write m2 0; spec_write m2 1; spec_write m2 2]]
  /\ (forall ch, writes_to ch (hw_writes (snd (set_indicator_color m2 ma))) = 1%nat)
  /\ last_bits (fst (set_indicator_color m2 ma)) = m2
  /\ snd (set_indicator_color m1 ma) = [SetColor m1 []]
  /\ fst (set_indicator_color m1 ma) = ma.
Proof.
  intros Hne ma.
  assert (Hl : last_bits ma = m1).
  { unfold ma. now rewrite set_indicator_color_state. }
  assert (Hout : snd (set_indicator_color m2 ma)
                 = [SetColor m2 [spec_write m2 0; spec_write m2 1; spec_write m2 2]]).
  { unfold set_indicator_color. rewrite Hl.
    destruct (Z.eqb_spec m2 m1) as [E|_]; [congruence|]. simpl.
    now rewrite !led_write_spec by lia. }
  repeat split.
  - exact Hout.
  - intros ch. rewrite Hout. unfold hw_writes, spec_write.
    cbn [flat_map call_hw app].
    destruct (Z.testbit m2 0), (Z.testbit m2 1), (Z.testbit m2 2), ch; reflexivity.
  - now rewrite set_indicator_color_state.
  - unfold set_indicator_color. rewrite Hl, Z.eqb_refl. reflexivity.
  - unfold set_indicator_color. rewrite Hl, Z.eqb_refl. reflexivity.
Qed.

Lemma set_indicator_color_writes_all_or_nothing_witness :
  1 <> 3 /\
  snd (set_indicator_color 3 (fst (set_indicator_color 1 zero_machine)))
    = [SetColor 3 [led_on indicator_r; led_on indicator_g; led_off indicator_b]].
Proof.
  split; [lia|].
  apply (set_indicator_color_writes_all_or_nothing zero_machine 1 3). lia.
Defined.

(** C3 as stated fails: going from mask 1 to mask 3 only the green bit
    changes, yet the red and the blue LED are written as well. *)
Lemma set_indicator_color_rewrites_unchanged_channels :
  1 <> 3 /\ ~ per_channel_dedup zero_machine 1 3.
Proof.
  split; [lia|]. intros H.
  specialize (H 0 (or_introl eq_refl)). vm_compute in H. discriminate H.
Qed.

(** * Event listeners *)

(** C2.  With the profile index as read into its [uint8_t]: above 3 the
    update changes nothing; otherwise it stores the index and, by the
    connected flag, [connection = 2] with 12 flashes or [connection = 1]
    with 60.  [keylock] and [battery] are never touched. *)
Theorem ble_active_profile_update_spec (z : zmk_t) (st : indicator_state_t) :
  let idx := zmk_ble_active_profile_index z in
  0 <= idx < 256 ->
  (3 < idx -> ble_active_profile_update z st = st)
  /\ (idx <= 3 -> zmk_ble_active_profile_is_connected z = true ->
      ble_active_profile_update z st
        = mk_indicator_state (keylock st) 2 idx (battery st) 12)
  /\ (idx <= 3 -> zmk_ble_active_profile_is_connected z = false ->
      ble_active_profile_update z st
        = mk_indicator_state (keylock st) 1 idx (battery st) 60).
Proof.
  intros idx Hr. unfold ble_active_profile_update, u8. fold idx.
  rewrite (Z.mod_small idx 256) by lia.
  repeat split.
  - intros H. apply Z.ltb_lt in H. now rewrite H.
  - intros H Hc. apply Z.ltb_ge in H. now rewrite H, Hc.
  - intros H Hc. apply Z.ltb_ge in H. now rewrite H, Hc.
Qed.

Lemma ble_active_profile_update_spec_witness :
  let st := mk_indicator_state 2 0 1 50 7 in
  ble_active_profile_update (mk_zmk 0 4 true BT_ADDR_LE_ANY) st = st
  /\ ble_active_profile_update (mk_zmk 0 2 true BT_ADDR_LE_ANY) st
     = mk_indicator_state 2 2 2 50 12
  /\ ble_active_profile_update (mk_zmk 0 0 false BT_ADDR_LE_ANY) st
     = mk_indicator_state 2 1 0 50 60.
Proof.
  cbv zeta. split; [|split].
  - apply (ble_active_profile_update_spec (mk_zmk 0 4 true BT_ADDR_LE_ANY));
      simpl; lia.
  - apply (ble_active_profile_update_spec (mk_zmk 0 2 true BT_ADDR_LE_ANY)
             (mk_indicator_state 2 0 1 50 7)); simpl; solve [lia | reflexivity].
  - apply (ble_active_profile_update_spec (mk_zmk 0 0 false BT_ADDR_LE_ANY)
             (mk_indicator_state 2 0 1 50 7)); simpl; solve [lia | reflexivity].
Defined.

(** C9.  The keycode handler runs the BLE profile update exactly when the
    keycode is 0xAB, with the profile index and connected flag read at that
    moment, and leaves the indicator state alone for every other keycode;
    delivered as an event, keycode 0xAB has the effect of an
    active-profile-changed event and any other keycode has none. *)
Theorem zmk_handle_keycode_user_spec (key : Z) (z : zmk_t) :
  (forall st,
      zmk_handle_keycode_user key z st
      = ((if key =? 0xAB then ble_active_profile_update_cb z st else st),
         ZMK_EV_EVENT_HANDLED))
  /\ (forall s,
      step (z, Event (zmk_keycode_state_changed key)) s
      = if key =? 0xAB then step (z, Event zmk_ble_active_profile_changed) s
        else (s, [])).
Proof.
  split.
  - intros st. reflexivity.
  - intros [[st t l] a]. unfold step, dispatch, keycode_user_listener,
      zmk_handle_keycode_user, ble_active_profile_update_cb. simpl.
    destruct (key =? 0xAB); reflexivity.
Qed.

(** * One iteration of the blink loop *)

Lemma profile_color_bits_palette (a : Z) :
  0 <= a < 3 -> profile_color_bits a = spec_palette a.
Proof.
  intros H. assert (a = 0 \/ a = 1 \/ a = 2) as [->|[->| ->]] by lia; reflexivity.
Qed.

Lemma phase_cases (t : Z) : phase t = 0 \/ phase t = 1 \/ phase t = 2 \/ phase t = 3.
Proof. pose proof (phase_range t). lia. Qed.

Lemma ble_switch_bits (z : zmk_t) (m : machine) (p : Z) :
  0 <= active_device (indicator_state m) < 3 ->
  0 <= p < 4 ->
  map call_bits (snd (ble_switch z m p))
  = if p =? 0 then [0]
    else if p =? 1 then [spec_palette (active_device (indicator_state m))]
    else if connection (indicator_state m) =? 2 then []
    else if p =? 2 then [0]
    else if bt_addr_le_eq (zmk_ble_active_profile_addr z) BT_ADDR_LE_ANY
         then [1] else [4].
Proof.
  intros Ha Hp. unfold ble_switch.
  assert (p = 0 \/ p = 1 \/ p = 2 \/ p = 3) as [->|[->|[->| ->]]] by lia;
    cbn [Z.eqb Pos.eqb];
    rewrite ?profile_color_bits_palette by assumption;
    destruct (connection (indicator_state m) =? 2); cbn [negb];
    try destruct (bt_addr_le_eq _ _);
    rewrite ?set_indicator_color_bits; reflexivity.
Qed.

Lemma ble_switch_frame (z : zmk_t) (m : machine) (p : Z) :
  indicator_state (fst (ble_switch z m p)) = indicator_state m
  /\ led_timer_steps (fst (ble_switch z m p)) = led_timer_steps m.
Proof.
  unfold ble_switch.
  destruct p as [|[[|[]|]|[|[]|]|]|];
    try destruct (connection (indicator_state m) =? 2); cbn [negb];
    try destruct (bt_addr_le_eq _ _);
    rewrite ?set_indicator_color_state; split; reflexivity.
Qed.

(** The BLE branch of the loop body, with the bit tests read as
    arithmetic on the tick counter. *)
Lemma led_process_iteration_ble (z : zmk_t) (m : machine) :
  0 < connection (indicator_state m) ->
  active_device (indicator_state m) < 3 ->
  led_process_iteration z m
  = let m1 := with_steps (tick_of m) m in
    if boundary16 (tick_of m) then
      let st1 := set_flash_times (u8 (flash_times (indicator_state m) - 1))
                                 (indicator_state m) in
      let r := ble_switch z (with_state st1 m1) (phase (tick_of m)) in
      (Continue (with_state (spec_ble_decrement (indicator_state m)) (fst r)), snd r)
    else (Continue m1, []).
Proof.
  intros Hc Ha. unfold led_process_iteration, tick_of.
  cbn [indicator_state led_timer_steps with_steps].
  apply Z.ltb_lt in Hc. rewrite Hc.
  assert (Ha' : (3 <=? active_device (indicator_state m)) = false)
    by (apply Z.leb_gt; exact Ha).
  rewrite Ha'. rewrite land_15, shiftr4_land3. unfold boundary16.
  destruct (u16 (led_timer_steps m + 1) mod 16 =? 15); [|reflexivity].
  cbv zeta.
  set (st1 := set_flash_times _ _). set (m1 := with_steps _ _).
  set (p := phase _).
  change (match p with
          | 0 => set_indicator_color 0 (with_state st1 m1)
          | 1 => set_indicator_color (profile_color_bits (active_device st1))
                   (with_state st1 m1)
          | 2 => if negb (connection st1 =? 2)
                 then set_indicator_color 0 (with_state st1 m1)
                 else no_call (with_state st1 m1)
          | 3 => if negb (connection st1 =? 2)
                 then
                   if bt_addr_le_eq (zmk_ble_active_profile_addr z) BT_ADDR_LE_ANY
                   then set_indicator_color 1 (with_state st1 m1)
                   else set_indicator_color 4 (with_state st1 m1)
                 else no_call (with_state st1 m1)
          | _ => no_call (with_state st1 m1)
          end) with (ble_switch z (with_state st1 m1) p).
  destruct (ble_switch_frame z (with_state st1 m1) p) as [Hs _].
  destruct (ble_switch z (with_state st1 m1) p) as [m2 out] eqn:E.
  cbn [fst snd] in *. rewrite Hs. cbn [indicator_state with_state].
  unfold spec_ble_decrement. fold st1.
  change (flash_times st1) with (u8 (flash_times (indicator_state m) - 1)).
  destruct (u8 (flash_times (indicator_state m) - 1) =? 0); [reflexivity|].
  f_equal. f_equal. destruct m2 as [s2 t2 l2]. cbn in Hs. subst s2. reflexivity.
Qed.

(** The two idle branches of the loop body, read the same way. *)
Lemma led_process_iteration_low_battery (z : zmk_t) (m : machine) :
  connection (indicator_state m) = 0 ->
  battery (indicator_state m) < 10 ->
  led_process_iteration z m
  = let m1 := with_steps (tick_of m) m in
    if tick_of m mod 32 =? 15 then
      (Continue (with_last_bits 1 m1), snd (set_indicator_color 1 m1))
    else if tick_of m mod 32 =? 31 then
      (Continue (with_last_bits 0 m1), snd (set_indicator_color 0 m1))
    else (Continue m1, []).
Proof.
  intros Hc Hb. unfold led_process_iteration, tick_of.
  cbn [indicator_state led_timer_steps with_steps].
  rewrite Hc. cbn [Z.ltb Z.compare].
  apply Z.ltb_lt in Hb. rewrite Hb. rewrite !land_31. cbv zeta.
  set (m1 := with_steps _ m).
  destruct (u16 (led_timer_steps m + 1) mod 32 =? 15);
    [|destruct (u16 (led_timer_steps m + 1) mod 32 =? 31)]; try reflexivity.
  - rewrite <- (set_indicator_color_state 1 m1).
    now destruct (set_indicator_color 1 m1).
  - rewrite <- (set_indicator_color_state 0 m1).
    now destruct (set_indicator_color 0 m1).
Qed.

Lemma led_process_iteration_lock (z : zmk_t) (m : machine) :
  connection (indicator_state m) = 0 ->
  10 <= battery (indicator_state m) ->
  led_process_iteration z m
  = let m1 := with_steps (tick_of m) m in
    let c := if Z.testbit (keylock (indicator_state m)) 1 then 5 else 0 in
    (Continue (with_last_bits c m1), snd (set_indicator_color c m1)).
Proof.
  intros Hc Hb. unfold led_process_iteration, tick_of.
  cbn [indicator_state led_timer_steps with_steps].
  rewrite Hc. cbn [Z.ltb Z.compare].
  apply Z.ltb_ge in Hb. rewrite Hb.
  unfold CAPSLOCK_BIT, BIT. rewrite land_bit_testbit by lia.
  rewrite negb_involutive. cbv zeta.
  set (m1 := with_steps _ m).
  destruct (Z.testbit (keylock (indicator_state m)) 1).
  - rewrite <- (set_indicator_color_state 5 m1).
    now destruct (set_indicator_color 5 m1).
  - rewrite <- (set_indicator_color_state 0 m1).
    now destruct (set_indicator_color 0 m1).
Qed.

Lemma led_process_iteration_halt (z : zmk_t) (m : machine) :
  0 < connection (indicator_state m) ->
  3 <= active_device (indicator_state m) ->
  led_process_iteration z m = (Return (with_steps (tick_of m) m), []).
Proof.
  intros Hc Ha. unfold led_process_iteration, tick_of.
  cbn [indicator_state led_timer_steps with_steps].
  apply Z.ltb_lt in Hc. apply Z.leb_le in Ha. now rewrite Hc, Ha.
Qed.

(** The battery level and the lock bits play no part in an iteration that
    takes the BLE branch, and the lock bits none in one that takes the
    low-battery branch. *)
Lemma ble_ignores_battery_keylock (z : zmk_t) (m : machine) (b k : Z) :
  0 < connection (indicator_state m) ->
  led_process_iteration z (with_battery_keylock b k m)
  = on_result (with_battery_keylock b k) (led_process_iteration z m).
Proof.
  intros Hc. apply Z.ltb_lt in Hc.
  destruct m as [[kl c a bat f] t l].
  cbv beta iota zeta delta
    [led_process_iteration with_battery_keylock set_indicator_color no_call
     with_state with_steps with_last_bits on_result fst snd negb
     set_battery set_keylock set_flash_times set_connection
     indicator_state led_timer_steps last_bits
     keylock connection active_device battery flash_times] in *.
  rewrite Hc.
  destruct (3 <=? a); [reflexivity|].
  destruct (Z.land (u16 (t + 1)) 15 =? 15); [|reflexivity].
  destruct (Z.land (Z.shiftr (u16 (t + 1)) 4) 3) as [|[[|[]|]|[|[]|]|]|];
    repeat match goal with
      | |- context [if ?c then _ else _] => destruct c
      end;
    reflexivity.
Qed.

Lemma low_battery_ignores_keylock (z : zmk_t) (m : machine) (k : Z) :
  connection (indicator_state m) = 0 ->
  battery (indicator_state m) < 10 ->
  led_process_iteration z (with_keylock k m)
  = on_result (with_keylock k) (led_process_iteration z m).
Proof.
  intros Hc Hb.
  rewrite (led_process_iteration_low_battery z m Hc Hb).
  rewrite (led_process_iteration_low_battery z (with_keylock k m)) by assumption.
  unfold tick_of, set_indicator_color. cbn [with_keylock with_state led_timer_steps
    with_steps last_bits indicator_state].
  cbv zeta.
  destruct (u16 (led_timer_steps m + 1) mod 32 =? 15);
    [|destruct (u16 (led_timer_steps m + 1) mod 32 =? 31)];
    cbn [on_result];
    repeat match goal with
      | |- context [if ?c then _ else _] => destruct c; cbn [negb fst snd]
      end;
    reflexivity.
Qed.

(** Every iteration hands the colour setter exactly the masks the
    specification lists for the mode the state is in. *)
Lemma led_process_iteration_bits (z : zmk_t) (m : machine) :
  wf m ->
  (connection (indicator_state m) <> 0 -> active_device (indicator_state m) < 3) ->
  map call_bits (snd (led_process_iteration z m))
  = spec_bits z (indicator_state m) (tick_of m).
Proof.
  intros [(Hk & Hc & Ha & Hb & Hf) Ht] Had. unfold spec_bits, spec_mode.
  destruct (Z.eqb_spec (connection (indicator_state m)) 0) as [E|NE].
  - destruct (Z.ltb_spec (battery (indicator_state m)) 10) as [L|G].
    + rewrite led_process_iteration_low_battery by assumption.
      unfold spec_battery_bits. cbv zeta.
      destruct (tick_of m mod 32 =? 15); [|destruct (tick_of m mod 32 =? 31)];
        cbn [snd]; rewrite ?set_indicator_color_bits; reflexivity.
    + rewrite led_process_iteration_lock by assumption.
      cbv zeta. cbn [snd]. now rewrite set_indicator_color_bits.
  - specialize (Had NE). rewrite led_process_iteration_ble by lia.
    unfold spec_ble_bits. cbv zeta.
    destruct (boundary16 (tick_of m)); [|reflexivity].
    cbn [snd]. rewrite ble_switch_bits.
    + reflexivity.
    + cbn. lia.
    + apply phase_range.
Qed.

(** * Runs of the loop and of the whole module *)

Lemma led_process_thread_app (zs1 zs2 : list zmk_t) (m : machine) :
  led_process_thread (zs1 ++ zs2) m
  = match led_process_thread zs1 m with
    | (Return m', out) => (Return m', out)
    | (Continue m', out) =>
        let '(r, out') := led_process_thread zs2 m' in (r, out ++ out')
    end.
Proof.
  revert m. induction zs1 as [|z zs1 IH]; intros m.
  - cbn [app led_process_thread]. now destruct (led_process_thread zs2 m).
  - cbn [app led_process_thread].
    destruct (led_process_iteration z m) as [[m'|m'] out]; [|reflexivity].
    rewrite IH. destruct (led_process_thread zs1 m') as [[m''|m''] out1].
    + destruct (led_process_thread zs2 m'') as [r out2]. now rewrite app_assoc.
    + reflexivity.
Qed.

(** Once the blink thread has returned nothing renders any more: whatever
    happens next, no colour-setter call is made and the thread stays dead. *)
Lemma run_after_return (zis : list (zmk_t * input)) (s : system) :
  led_process_alive s = false ->
  snd (run zis s) = []
  /\ led_process_alive (fst (run zis s)) = false
  /\ last_bits (mach (fst (run zis s))) = last_bits (mach s).
Proof.
  revert s. induction zis as [|[z i] rest IH]; intros s Hd.
  - cbn. auto.
  - cbn [run]. destruct (step (z, i) s) as [s1 out1] eqn:E1.
    assert (H1 : out1 = [] /\ led_process_alive s1 = false
                 /\ last_bits (mach s1) = last_bits (mach s)).
    { unfold step in E1. destruct i.
      - inversion E1; subst; cbn; auto.
      - inversion E1; subst; cbn; auto.
      - rewrite Hd in E1. inversion E1; subst; auto. }
    destruct H1 as (-> & Hd1 & Hl1).
    destruct (IH s1 Hd1) as (Ho & Ha & Hl).
    destruct (run rest s1) as [s2 out2]. cbn [fst snd] in *.
    subst out2. rewrite Hl, Hl1. auto.
Qed.

(** * The blink sequencer *)

(** C7.  An iteration that finds [connection] different from Idle and
    [active_device] at 3 or more returns from the loop without a
    colour-setter call; the thread is then dead, and no later tick or event
    produces a colour-setter call or changes the colour applied last. *)
Theorem out_of_range_device_ends_rendering (z : zmk_t) (m : machine) :
  wf m ->
  connection (indicator_state m) <> 0 ->
  3 <= active_device (indicator_state m) ->
  led_process_iteration z m = (Return (with_steps (tick_of m) m), [])
  /\ (forall zs, led_process_thread (z :: zs) m
                 = (Return (with_steps (tick_of m) m), []))
  /\ (forall zis,
        snd (run ((z, Tick) :: zis) (mk_system m true)) = []
        /\ led_process_alive (fst (run ((z, Tick) :: zis) (mk_system m true))) = false
        /\ last_bits (mach (fst (run ((z, Tick) :: zis) (mk_system m true))))
           = last_bits m).
Proof.
  intros [(_ & Hc & _) _] Hne Ha.
  assert (H : led_process_iteration z m = (Return (with_steps (tick_of m) m), []))
    by (apply led_process_iteration_halt; lia).
  split; [exact H|]. split.
  - intros zs. cbn [led_process_thread]. now rewrite H.
  - intros zis. cbn [run step mach led_process_alive]. rewrite H.
    destruct (run_after_return zis (mk_system (with_steps (tick_of m) m) false)
                eq_refl) as (Ho & Hd & Hl).
    destruct (run zis _) as [s2 out2]. cbn [fst snd] in *.
    subst out2. auto.
Qed.

Lemma out_of_range_device_ends_rendering_witness :
  let z := mk_zmk 2 3 false BT_ADDR_LE_ANY in
  let m := mk_machine (mk_indicator_state 0 1 3 50 60) 0 0 in
  snd (run [(z, Tick); (z, Tick); (z, Event zmk_hid_indicators_changed); (z, Tick)]
           (mk_system m true)) = [].
Proof.
  intros z m.
  refine (proj1 (proj2 (proj2 (out_of_range_device_ends_rendering z m _ _ _)) _)).
  - unfold wf, wf_state. cbn. lia.
  - cbn. lia.
  - cbn. lia.
Defined.

(** C8.  In lock mode (connection Idle, battery at 10 or more, 50 for
    one) every iteration calls the colour setter: with 0b101 when bit 1 of
    [keylock] is set, with 0 otherwise.  So once the HID listener has
    stored new lock bits the very next tick renders the colour of the new
    caps-lock bit, and a toggled bit gives the other colour. *)
Theorem lock_mode_follows_capslock_every_tick (z : zmk_t) (m : machine) :
  connection (indicator_state m) = 0 ->
  10 <= battery (indicator_state m) ->
  let color (k : Z) := if Z.testbit k 1 then 5 else 0 in
  let c := color (keylock (indicator_state m)) in
  led_process_iteration z m
  = (Continue (with_last_bits c (with_steps (tick_of m) m)),
     [SetColor c (if c =? last_bits m then []
                  else [spec_write c 0; spec_write c 1; spec_write c 2])])
  /\ (forall z1,
        let h := zmk_hid_indicators_get_current_profile z1 in
        let r := run [(z1, Event zmk_hid_indicators_changed); (z, Tick)]
                     (mk_system m true) in
        map call_bits (snd r) = [color h]
        /\ last_bits (mach (fst r)) = color h
        /\ (Z.testbit h 1 = negb (Z.testbit (keylock (indicator_state m)) 1) ->
            color h <> c)).
Proof.
  intros Hc Hb color c.
  assert (Hone : forall m', connection (indicator_state m') = 0 ->
            10 <= battery (indicator_state m') ->
            let c' := color (keylock (indicator_state m')) in
            led_process_iteration z m'
            = (Continue (with_last_bits c' (with_steps (tick_of m') m')),
               [SetColor c' (if c' =? last_bits m' then []
                  else [spec_write c' 0; spec_write c' 1; spec_write c' 2])])).
  { intros m' Hc' Hb' c'. rewrite led_process_iteration_lock by assumption.
    cbv zeta. fold (color (keylock (indicator_state m'))). fold c'.
    f_equal. unfold set_indicator_color. cbn [last_bits with_steps].
    destruct (c' =? last_bits m'); cbn [negb snd]; [reflexivity|].
    cbn [map]. now rewrite !led_write_spec by lia. }
  split; [apply Hone; assumption|].
  intros z1 h r. subst r.
  cbn [run step mach led_process_alive dispatch hid_indicators_status_update_cb
       get_lock_indicators].
  set (m1 := with_state _ m).
  assert (Hk : color (keylock (indicator_state m1)) = color h).
  { unfold m1, color, hid_indicators_status_update_cb, get_lock_indicators, u8.
    cbn [with_state indicator_state set_keylock keylock]. fold h.
    change 256 with (2 ^ 8). now rewrite Z.mod_pow2_bits_low by lia. }
  rewrite (Hone m1) by (unfold m1; cbn; assumption).
  rewrite Hk. cbn [fst snd app map call_bits mach last_bits with_last_bits].
  repeat split.
  intros Ht. unfold c, color. rewrite Ht.
  destruct (Z.testbit (keylock (indicator_state m)) 1); cbn; lia.
Qed.

Lemma lock_mode_follows_capslock_every_tick_witness :
  let m := mk_machine (mk_indicator_state 2 0 0 50 0) 7 0 in
  led_process_iteration (mk_zmk 2 0 false BT_ADDR_LE_ANY) m
  = (Continue (mk_machine (mk_indicator_state 2 0 0 50 0) 8 5),
     [SetColor 5 [led_on indicator_r; led_off indicator_g; led_on indicator_b]]).
Proof.
  intros m.
  apply (lock_mode_follows_capslock_every_tick (mk_zmk 2 0 false BT_ADDR_LE_ANY) m).
  - reflexivity.
  - cbn. lia.
Defined.

(** C6.  In BLE mode with a usable slot the palette is 0b011, 0b110,
    0b101 for slots 0, 1, 2 and a 16-tick boundary renders by phase: off in
    phase 0; the slot colour in phase 1; off in phase 2 and red or blue in
    phase 3 (red when the profile address is the unset one) unless the
    connection is Connected, in which case phases 2 and 3 make no
    colour-setter call and leave the colour applied last in place.  Between
    boundaries nothing is rendered. *)
Theorem ble_pattern_by_phase (z : zmk_t) (m : machine) :
  wf m ->
  connection (indicator_state m) <> 0 ->
  active_device (indicator_state m) < 3 ->
  let st := indicator_state m in
  let t := tick_of m in
  let r := led_process_iteration z m in
  let bits := map call_bits (snd r) in
  (profile_color_bits 0 = 3 /\ profile_color_bits 1 = 6 /\ profile_color_bits 2 = 5)
  /\ bits = spec_ble_bits z st t
  /\ (boundary16 t = true -> phase t = 0 -> bits = [0])
  /\ (boundary16 t = true -> phase t = 1 ->
      bits = [profile_color_bits (active_device st)])
  /\ (boundary16 t = true -> phase t = 2 -> connection st <> 2 -> bits = [0])
  /\ (boundary16 t = true -> phase t = 3 -> connection st <> 2 ->
      bits = [if bt_addr_le_eq (zmk_ble_active_profile_addr z) BT_ADDR_LE_ANY
              then 1 else 4])
  /\ (boundary16 t = true -> phase t = 2 \/ phase t = 3 -> connection st = 2 ->
      snd r = [] /\ last_bits (result_machine (fst r)) = last_bits m)
  /\ (boundary16 t = false ->
      snd r = [] /\ last_bits (result_machine (fst r)) = last_bits m).
Proof.
  intros Hwf Hne Ha st t r bits.
  assert (Hwf' := Hwf). destruct Hwf' as [(_ & Hc & Had & _) _].
  assert (Hbits : bits = spec_ble_bits z st t).
  { unfold bits, r. rewrite led_process_iteration_bits by auto.
    unfold spec_bits, spec_mode. fold st.
    destruct (Z.eqb_spec (connection st) 0); [contradiction|reflexivity]. }
  assert (Hr : r = led_process_iteration z m) by reflexivity.
  rewrite led_process_iteration_ble in Hr by lia. cbv zeta in Hr. fold t in Hr.
  split; [repeat split|]. split; [exact Hbits|].
  rewrite Hbits. unfold spec_ble_bits.
  repeat split.
  - intros -> ->. reflexivity.
  - intros -> ->. cbn [Z.eqb Pos.eqb]. fold st.
    now rewrite profile_color_bits_palette by (unfold st; lia).
  - intros -> -> H2. apply Z.eqb_neq in H2. now rewrite H2.
  - intros -> -> H2. apply Z.eqb_neq in H2. rewrite H2. cbn [Z.eqb Pos.eqb].
    now destruct (bt_addr_le_eq _ _).
  - rewrite Hr, H. destruct H0 as [-> | ->]; unfold ble_switch;
      cbn [indicator_state with_state set_flash_times connection];
      fold st; rewrite H1; reflexivity.
  - rewrite Hr, H. destruct H0 as [-> | ->]; unfold ble_switch;
      cbn [indicator_state with_state set_flash_times connection];
      fold st; rewrite H1; reflexivity.
  - rewrite Hr, H. reflexivity.
  - rewrite Hr, H. reflexivity.
Qed.

Lemma ble_pattern_by_phase_witness :
  let m := mk_machine (mk_indicator_state 0 1 1 50 60) 62 0 in
  map call_bits (snd (led_process_iteration (mk_zmk 0 1 false BT_ADDR_LE_ANY) m))
  = [1].
Proof.
  intros m.
  refine (proj1 (proj2 (ble_pattern_by_phase
                          (mk_zmk 0 1 false BT_ADDR_LE_ANY) m _ _ _))).
  - unfold wf, wf_state. cbn. lia.
  - cbn. lia.
  - cbn. lia.
Defined.

(** C1.  Which branch an iteration takes is decided by [connection] first
    and [battery] second, and the branch taken is the only one that
    renders.  With [connection] not Idle the colour-setter calls are those
    of the BLE pattern (none at all for a slot of 3 or more) and the whole
    iteration is the same whatever the battery level and lock bits are;
    with [connection] Idle and [battery] below 10 they are those of the
    battery blink, whatever the lock bits are; otherwise they are those of
    the lock indicator.  In particular with Pairing and battery 5 the masks
    are the BLE ones on every tick, the tick on which the battery blink
    would switch red on renders off instead, and [connection] leaves
    Pairing only on the boundary that brings [flash_times] to 0. *)
Theorem mode_priority_is_strict (z : zmk_t) (m : machine) :
  wf m ->
  let st := indicator_state m in
  let t := tick_of m in
  let r := led_process_iteration z m in
  let bits := map call_bits (snd r) in
  (connection st <> 0 ->
     bits = (if 3 <=? active_device st then [] else spec_ble_bits z st t)
     /\ forall b k, led_process_iteration z (with_battery_keylock b k m)
                    = on_result (with_battery_keylock b k) r)
  /\ (connection st = 0 -> battery st < 10 ->
     bits = spec_battery_bits t
     /\ forall k, led_process_iteration z (with_keylock k m)
                  = on_result (with_keylock k) r)
  /\ (connection st = 0 -> 10 <= battery st -> bits = spec_lock_bits st)
  /\ (connection st = 1 -> battery st = 5 -> active_device st < 3 ->
     bits = spec_ble_bits z st t
     /\ (t mod 32 = 15 -> bits = [0] /\ spec_battery_bits t = [1])
     /\ connection (indicator_state (result_machine (fst r)))
        = if boundary16 t && (u8 (flash_times st - 1) =? 0) then 0 else 1).
Proof.
  intros Hwf st t r bits.
  assert (Hwf' := Hwf). destruct Hwf' as [(_ & Hc & Had & _ & Hf) _].
  fold st in Hc, Had, Hf.
  assert (Hspec : (connection st <> 0 -> active_device st < 3) ->
                  bits = spec_bits z st t).
  { intros H. unfold bits, r. now rewrite led_process_iteration_bits. }
  unfold spec_bits, spec_mode in Hspec.
  split; [|split; [|split]].
  - intros Hne. split.
    + destruct (Z.leb_spec 3 (active_device st)) as [G|L].
      * unfold bits, r. rewrite led_process_iteration_halt by (fold st; lia).
        reflexivity.
      * rewrite Hspec by auto.
        destruct (Z.eqb_spec (connection st) 0); [contradiction|reflexivity].
    + intros b k. apply ble_ignores_battery_keylock. fold st. lia.
  - intros H0 Hb. split.
    + rewrite Hspec by (intros; contradiction). rewrite H0.
      apply Z.ltb_lt in Hb. now rewrite Hb.
    + intros k. apply low_battery_ignores_keylock; assumption.
  - intros H0 Hb. rewrite Hspec by (intros; contradiction). rewrite H0.
    apply Z.ltb_ge in Hb. now rewrite Hb.
  - intros H1 Hb Ha.
    assert (Hbits : bits = spec_ble_bits z st t).
    { rewrite Hspec by auto. now rewrite H1. }
    split; [exact Hbits|]. split.
    + intros H15. rewrite Hbits. unfold spec_ble_bits, spec_battery_bits.
      rewrite H15, H1. cbn [Z.eqb Pos.eqb].
      assert (Hb16 : boundary16 t = true).
      { unfold boundary16. apply Z.eqb_eq. clear - H15.
        Z.div_mod_to_equations. lia. }
      assert (Hph : phase t = 0 \/ phase t = 2).
      { unfold phase. clear - H15. Z.div_mod_to_equations. lia. }
      rewrite Hb16. destruct Hph as [-> | ->]; split; reflexivity.
    + unfold r. rewrite led_process_iteration_ble by (fold st; lia).
      cbv zeta. fold t. fold st.
      destruct (boundary16 t); cbn [andb fst result_machine].
      * cbn [indicator_state with_state]. unfold spec_ble_decrement. fold st.
        destruct (u8 (flash_times st - 1) =? 0); cbn; [reflexivity|exact H1].
      * cbn [indicator_state with_steps]. exact H1.
Qed.

Lemma mode_priority_is_strict_witness :
  let m := mk_machine (mk_indicator_state 2 1 0 5 60) 14 0 in
  map call_bits (snd (led_process_iteration (mk_zmk 0 0 false BT_ADDR_LE_ANY) m))
  = [0]
  /\ spec_battery_bits (tick_of m) = [1].
Proof.
  intros m.
  refine (proj1 (proj2 (proj2 (proj2 (proj2 (mode_priority_is_strict
            (mk_zmk 0 0 false BT_ADDR_LE_ANY) m _))) _ _ _)) _).
  - unfold wf, wf_state. cbn. lia.
  - reflexivity.
  - reflexivity.
  - cbn. lia.
  - reflexivity.
Defined.

(** * Low-battery blink *)

Lemma with_steps_same (m : machine) :
  with_steps (led_timer_steps m) m = m.
Proof. now destruct m. Qed.

(** A stretch of low-battery ticks that meets neither offset 15 nor offset
    31 renders nothing and only advances the counter. *)
Lemma low_battery_quiet (zs : list zmk_t) (m : machine) :
  0 <= led_timer_steps m < 65536 ->
  connection (indicator_state m) = 0 ->
  battery (indicator_state m) < 10 ->
  let r := led_timer_steps m mod 32 in
  let n := Z.of_nat (length zs) in
  (r = 31 /\ n <= 15) \/ r + n < 15 \/ (15 <= r /\ r + n < 31) ->
  led_process_thread zs m = (Continue (with_steps (u16 (led_timer_steps m + n)) m), []).
Proof.
  revert m. induction zs as [|z zs IH]; intros m Hs Hc Hb r n Hq.
  - cbn [led_process_thread]. subst n. cbn [length Z.of_nat].
    rewrite Z.add_0_r. unfold u16. rewrite Z.mod_small by lia.
    now rewrite with_steps_same.
  - cbn [led_process_thread].
    rewrite led_process_iteration_low_battery by assumption. cbv zeta.
    assert (Hn : n = Z.of_nat (length zs) + 1) by (subst n; cbn [length]; lia).
    assert (H15 : (tick_of m mod 32 =? 15) = false)
      by (apply Z.eqb_neq; subst r; zmod).
    assert (H31 : (tick_of m mod 32 =? 31) = false)
      by (apply Z.eqb_neq; subst r; zmod).
    rewrite H15, H31.
    rewrite IH.
    + cbn [led_timer_steps with_steps app]. do 2 f_equal.
      unfold with_steps. cbn [indicator_state last_bits]. f_equal.
      rewrite Hn. zmod.
    + cbn [led_timer_steps with_steps]. zmod.
    + exact Hc.
    + exact Hb.
    + cbn [led_timer_steps with_steps]. subst r. rewrite Hn in Hq. zmod.
Qed.

(** C5.  In low-battery mode (connection Idle, battery below 10, 5 for
    one) an iteration calls the colour setter with red (0b001) exactly when
    its tick is 15 mod 32, with 0 exactly when its tick is 31 mod 32, and
    not at all otherwise.  Hence a window of 32 ticks that starts at a
    multiple of 32 sees exactly two calls, red then off: the first switches
    red on (unless red is what was applied last), the second switches all
    three LEDs off. *)
Theorem low_battery_blink_window (zs : list zmk_t) (m : machine) :
  wf m ->
  connection (indicator_state m) = 0 ->
  battery (indicator_state m) < 10 ->
  (forall z, map call_bits (snd (led_process_iteration z m))
             = if tick_of m mod 32 =? 15 then [1]
               else if tick_of m mod 32 =? 31 then [0] else [])
  /\ (length zs = 32%nat -> tick_of m mod 32 = 0 ->
      led_process_thread zs m
      = (Continue (with_last_bits 0 (with_steps (u16 (led_timer_steps m + 32)) m)),
         [SetColor 1 (if last_bits m =? 1 then []
                      else [led_on indicator_r; led_off indicator_g;
                            led_off indicator_b]);
          SetColor 0 [led_off indicator_r; led_off indicator_g;
                      led_off indicator_b]])).
Proof.
  intros [Hst Hs] Hc Hb. split.
  - intros z. rewrite led_process_iteration_low_battery by assumption. cbv zeta.
    destruct (tick_of m mod 32 =? 15); [|destruct (tick_of m mod 32 =? 31)];
      cbn [snd]; rewrite ?set_indicator_color_bits; reflexivity.
  - intros Hlen H0.
    do 32 (destruct zs as [|? zs]; [discriminate|]).
    destruct zs; [|discriminate]. clear Hlen.
    match goal with
    | |- led_process_thread [?a0; ?a1; ?a2; ?a3; ?a4; ?a5; ?a6; ?a7; ?a8; ?a9;
                              ?a10; ?a11; ?a12; ?a13; ?a14; ?a15; ?a16; ?a17;
                              ?a18; ?a19; ?a20; ?a21; ?a22; ?a23; ?a24; ?a25;
                              ?a26; ?a27; ?a28; ?a29; ?a30; ?a31] _ = _ =>
        change (led_process_thread
                  ([a0; a1; a2; a3; a4; a5; a6; a7; a8; a9; a10; a11; a12; a13; a14]
                   ++ a15 :: [a16; a17; a18; a19; a20; a21; a22; a23; a24; a25;
                              a26; a27; a28; a29; a30] ++ [a31]) m
                = (Continue (with_last_bits 0
                               (with_steps (u16 (led_timer_steps m + 32)) m)),
                   [SetColor 1 (if last_bits m =? 1 then []
                                else [led_on indicator_r; led_off indicator_g;
                                      led_off indicator_b]);
                    SetColor 0 [led_off indicator_r; led_off indicator_g;
                                led_off indicator_b]]))
    end.
    rewrite led_process_thread_app.
    rewrite low_battery_quiet;
      [|assumption|assumption|assumption|cbn [length]; left; zmod].
    cbn [length led_process_thread].
    set (m1 := with_steps (u16 (led_timer_steps m + Z.of_nat 15)) m).
    assert (Hs1 : led_timer_steps m1 = u16 (led_timer_steps m + 15)) by reflexivity.
    rewrite (led_process_iteration_low_battery _ m1) by assumption. cbv zeta.
    assert (H15 : (tick_of m1 mod 32 =? 15) = true)
      by (apply Z.eqb_eq; unfold tick_of; rewrite Hs1; clear - H0 Hs; zmod).
    rewrite H15.
    set (m2 := with_last_bits 1 (with_steps (tick_of m1) m1)).
    assert (Hs2 : led_timer_steps m2 = u16 (led_timer_steps m + 16))
      by (cbn [m2 led_timer_steps with_last_bits with_steps]; unfold tick_of;
          rewrite Hs1; clear; zmod).
    rewrite led_process_thread_app.
    rewrite low_battery_quiet;
      [|rewrite Hs2; clear; zmod|assumption|assumption
       |cbn [length]; right; right; rewrite Hs2; clear - H0 Hs; zmod].
    cbn [length led_process_thread].
    set (m3 := with_steps _ m2).
    assert (Hs3 : led_timer_steps m3 = u16 (led_timer_steps m + 31))
      by (cbn [m3 led_timer_steps with_steps]; rewrite Hs2; clear; zmod).
    rewrite (led_process_iteration_low_battery _ m3) by assumption. cbv zeta.
    assert (H15' : (tick_of m3 mod 32 =? 15) = false)
      by (apply Z.eqb_neq; unfold tick_of; rewrite Hs3; clear - H0 Hs; zmod).
    assert (H31 : (tick_of m3 mod 32 =? 31) = true)
      by (apply Z.eqb_eq; unfold tick_of; rewrite Hs3; clear - H0 Hs; zmod).
    rewrite H15', H31.
    f_equal.
    + f_equal. unfold with_last_bits, with_steps, tick_of.
      cbn [indicator_state led_timer_steps last_bits]. f_equal.
      fold (led_timer_steps m3). rewrite Hs3. clear; zmod.
    + unfold set_indicator_color.
      cbn [last_bits with_steps m3 m2 m1 with_last_bits app snd negb map].
      rewrite (Z.eqb_sym 1 (last_bits m)).
      destruct (last_bits m =? 1); reflexivity.
Qed.

Lemma low_battery_blink_window_witness :
  let m := mk_machine (mk_indicator_state 0 0 0 5 0) 31 0 in
  led_process_thread (repeat (mk_zmk 0 0 false BT_ADDR_LE_ANY) 32) m
  = (Continue (mk_machine (mk_indicator_state 0 0 0 5 0) 63 0),
     [SetColor 1 [led_on indicator_r; led_off indicator_g; led_off indicator_b];
      SetColor 0 [led_off indicator_r; led_off indicator_g; led_off indicator_b]]).
Proof.
  intros m.
  refine (proj2 (low_battery_blink_window
                   (repeat (mk_zmk 0 0 false BT_ADDR_LE_ANY) 32) m _ _ _) _ _).
  - unfold wf, wf_state. cbn. lia.
  - reflexivity.
  - cbn. lia.
  - reflexivity.
  - reflexivity.
Defined.

(** * The BLE countdown *)

Lemma boundaries_step (s n : Z) :
  0 <= n ->
  boundaries s (n + 1)
  = (if boundary16 (u16 (s + 1)) then 1 else 0) + boundaries (u16 (s + 1)) n.
Proof.
  intros Hn. unfold boundaries, boundary16.
  destruct (Z.eqb_spec (u16 (s + 1) mod 16) 15); zmod.
Qed.

Lemma boundaries_nonneg (s n : Z) : 0 <= n -> 0 <= boundaries s n.
Proof. intros Hn. unfold boundaries. zmod. Qed.

Lemma remaining_decrement (f : Z) :
  0 <= f < 256 -> 1 < remaining f ->
  u8 (f - 1) <> 0 /\ remaining (u8 (f - 1)) = remaining f - 1
  /\ 0 <= u8 (f - 1) < 256.
Proof.
  unfold remaining. intros Hf.
  destruct (Z.eqb_spec f 0) as [->|Hz]; intros HR.
  - cbn. lia.
  - assert (E : u8 (f - 1) = f - 1) by (unfold u8; apply Z.mod_small; lia).
    rewrite E. destruct (Z.eqb_spec (f - 1) 0); lia.
Qed.

Lemma ble_boundary_one_call (z : zmk_t) (m : machine) (p : Z) :
  0 <= active_device (indicator_state m) < 3 ->
  connection (indicator_state m) <> 2 ->
  length (snd (ble_switch z m (phase p))) = 1%nat.
Proof.
  intros Ha Hc. rewrite <- (length_map call_bits).
  rewrite ble_switch_bits by (auto using phase_range).
  apply Z.eqb_neq in Hc. rewrite Hc.
  repeat match goal with
    | |- context [if ?c then _ else _] => destruct c
    end; reflexivity.
Qed.

(** While fewer boundaries have passed than the counter allows, the loop
    keeps running in BLE mode: the counter has gone down by one per
    boundary, nothing else in the indicator state has changed, and (unless
    Connected) each boundary made one colour-setter call. *)
Lemma ble_run_before (zs : list zmk_t) (m : machine) :
  wf m ->
  connection (indicator_state m) <> 0 ->
  active_device (indicator_state m) < 3 ->
  let n := Z.of_nat (length zs) in
  let b := boundaries (led_timer_steps m) n in
  b < remaining (flash_times (indicator_state m)) ->
  let r := led_process_thread zs m in
  still_looping (fst r) = true
  /\ indicator_state (result_machine (fst r))
     = set_flash_times (u8 (flash_times (indicator_state m) - b)) (indicator_state m)
  /\ led_timer_steps (result_machine (fst r)) = u16 (led_timer_steps m + n)
  /\ (connection (indicator_state m) <> 2 -> Z.of_nat (length (snd r)) = b).
Proof.
  revert m. induction zs as [|z zs IH]; intros m Hwf Hc Ha n b Hb r.
  - subst r n b. cbn [led_process_thread fst snd result_machine still_looping length
                      Z.of_nat].
    destruct Hwf as [(Hk & Hcc & Had & Hbt & Hf) Hs].
    assert (E : boundaries (led_timer_steps m) 0 = 0) by (unfold boundaries; zmod).
    rewrite E, Z.sub_0_r, Z.add_0_r. unfold u8, u16.
    rewrite !Z.mod_small by lia.
    repeat split. now destruct m as [[? ? ? ? ?] ? ?].
  - assert (Hwf' := Hwf). destruct Hwf' as [(Hk & Hcc & Had & Hbt & Hf) Hs].
    assert (Hn : n = Z.of_nat (length zs) + 1) by (subst n; cbn [length]; lia).
    assert (Hstep := boundaries_step (led_timer_steps m) (Z.of_nat (length zs))
                       (Nat2Z.is_nonneg _)).
    assert (Hnn := boundaries_nonneg (u16 (led_timer_steps m + 1))
                     (Z.of_nat (length zs)) (Nat2Z.is_nonneg _)).
    fold (tick_of m) in Hstep, Hnn.
    subst r. cbn [led_process_thread].
    rewrite led_process_iteration_ble by lia. cbv zeta.
    set (st := indicator_state m) in *.
    destruct (boundary16 (tick_of m)) eqn:Hb16.
    + (* a boundary: the counter goes down, the mode stays *)
      set (sw := ble_switch z _ _).
      assert (HR : 1 < remaining (flash_times st)) by (subst b; rewrite Hn in Hb; lia).
      destruct (remaining_decrement (flash_times st) Hf HR) as (Hnz & Hrem & Hrng).
      assert (Hdec : spec_ble_decrement st = set_flash_times (u8 (flash_times st - 1)) st).
      { unfold spec_ble_decrement. apply Z.eqb_neq in Hnz. now rewrite Hnz. }
      rewrite Hdec.
      set (m1 := with_state _ (fst sw)).
      destruct (ble_switch_frame z
                  (with_state (set_flash_times (u8 (flash_times st - 1)) st)
                              (with_steps (tick_of m) m)) (phase (tick_of m)))
        as [_ Hsteps].
      fold sw in Hsteps. cbn [led_timer_steps with_state with_steps] in Hsteps.
      assert (Hs1 : led_timer_steps m1 = tick_of m) by exact Hsteps.
      assert (Hst1 : indicator_state m1 = set_flash_times (u8 (flash_times st - 1)) st)
        by reflexivity.
      specialize (IH m1).
      rewrite Hst1, Hs1 in IH. cbv zeta in IH.
      cbn [connection active_device flash_times set_flash_times] in IH.
      destruct IH as (Hl & Hi & Ht & Hcnt).
      * split; [|rewrite Hs1; zmod].
        rewrite Hst1. unfold wf_state.
        cbn [keylock connection active_device battery flash_times set_flash_times].
        auto.
      * exact Hc.
      * exact Ha.
      * rewrite Hrem. subst b. rewrite Hn in Hb. lia.
      * destruct (led_process_thread zs m1) as [r1 out1].
        cbn [fst snd] in *. repeat split.
        -- exact Hl.
        -- rewrite Hi. unfold set_flash_times.
           cbn [keylock connection active_device battery]. f_equal.
           subst b. rewrite Hn, Hstep. clear - Hf Hnn Hrng. zmod.
        -- rewrite Ht. rewrite Hn. clear. zmod.
        -- intros H2. rewrite length_app, Nat2Z.inj_add, (Hcnt H2).
           unfold sw. rewrite ble_boundary_one_call.
           ++ subst b. rewrite Hn, Hstep. lia.
           ++ cbn [indicator_state with_state active_device set_flash_times]. lia.
           ++ exact H2.
    + (* between boundaries nothing changes but the tick counter *)
      set (m1 := with_steps (tick_of m) m).
      specialize (IH m1). cbv zeta in IH.
      cbn [m1 indicator_state led_timer_steps with_steps] in IH. fold st in IH.
      destruct IH as (Hl & Hi & Ht & Hcnt).
      * split; [exact (proj1 Hwf)|]. cbn [m1 led_timer_steps with_steps]. zmod.
      * exact Hc.
      * exact Ha.
      * subst b. rewrite Hn in Hb. lia.
      * destruct (led_process_thread zs m1) as [r1 out1].
        cbn [fst snd app] in *. repeat split.
        -- exact Hl.
        -- rewrite Hi. subst b. rewrite Hn, Hstep. reflexivity.
        -- rewrite Ht. rewrite Hn. clear. zmod.
        -- intros H2. rewrite (Hcnt H2). subst b. rewrite Hn, Hstep. lia.
Qed.

(** The boundary that uses the counter up ends the BLE mode. *)
Lemma ble_run_exit (zs : list zmk_t) (z : zmk_t) (m : machine) :
  wf m ->
  connection (indicator_state m) <> 0 ->
  active_device (indicator_state m) < 3 ->
  let n := Z.of_nat (length zs) in
  boundaries (led_timer_steps m) n = remaining (flash_times (indicator_state m)) - 1 ->
  boundary16 (u16 (led_timer_steps m + n + 1)) = true ->
  let r := led_process_thread (zs ++ [z]) m in
  still_looping (fst r) = true
  /\ indicator_state (result_machine (fst r))
     = set_connection 0 (set_flash_times 0 (indicator_state m))
  /\ led_timer_steps (result_machine (fst r)) = u16 (led_timer_steps m + n + 1)
  /\ (connection (indicator_state m) <> 2 ->
      Z.of_nat (length (snd r)) = remaining (flash_times (indicator_state m))).
Proof.
  intros Hwf Hc Ha n Hb Hb16 r. subst r.
  assert (Hwf' := Hwf). destruct Hwf' as [(Hk & Hcc & Had & Hbt & Hf) Hs].
  rewrite led_process_thread_app.
  destruct (ble_run_before zs m Hwf Hc Ha) as (Hl & Hi & Ht & Hcnt).
  { fold n. rewrite Hb. lia. }
  fold n in Hi, Ht, Hcnt. rewrite Hb in Hi, Hcnt.
  destruct (led_process_thread zs m) as [[m'|m'] out]; [|discriminate Hl].
  cbn [fst snd result_machine] in Hi, Ht, Hcnt.
  assert (Hone : u8 (flash_times (indicator_state m)
                     - (remaining (flash_times (indicator_state m)) - 1)) = 1).
  { unfold remaining.
    destruct (Z.eqb_spec (flash_times (indicator_state m)) 0) as [->|]; [reflexivity|].
    replace (_ - _) with 1 by lia. reflexivity. }
  rewrite Hone in Hi.
  assert (Htick : tick_of m' = u16 (led_timer_steps m + n + 1))
    by (unfold tick_of; rewrite Ht; clear; zmod).
  cbn [led_process_thread].
  rewrite led_process_iteration_ble by (rewrite Hi; cbn; lia).
  cbv zeta. rewrite Htick, Hb16.
  set (sw := ble_switch z _ _).
  assert (Hdec : spec_ble_decrement (indicator_state m')
                 = set_connection 0 (set_flash_times 0 (indicator_state m))).
  { rewrite Hi. reflexivity. }
  rewrite Hdec.
  destruct (ble_switch_frame z
              (with_state (set_flash_times (u8 (flash_times (indicator_state m') - 1))
                                           (indicator_state m'))
                          (with_steps (u16 (led_timer_steps m + n + 1)) m'))
              (phase (u16 (led_timer_steps m + n + 1)))) as [_ Hsteps].
  fold sw in Hsteps.
  cbn [fst snd result_machine still_looping indicator_state with_state
       led_timer_steps with_steps] in *.
  repeat split.
  - exact Hsteps.
  - intros H2. rewrite length_app, Nat2Z.inj_add, (Hcnt H2), app_nil_r.
    unfold sw. rewrite ble_boundary_one_call.
    + lia.
    + cbn [indicator_state with_state active_device set_flash_times].
      rewrite Hi. cbn. lia.
    + cbn [indicator_state with_state connection set_flash_times].
      rewrite Hi. exact H2.
Qed.

(** With [connection] Idle the loop never leaves the idle branches: it
    keeps running and the indicator state stays as it is. *)
Lemma idle_run (zs : list zmk_t) (m : machine) :
  connection (indicator_state m) = 0 ->
  still_looping (fst (led_process_thread zs m)) = true
  /\ indicator_state (result_machine (fst (led_process_thread zs m)))
     = indicator_state m.
Proof.
  revert m. induction zs as [|z zs IH]; intros m Hc.
  - cbn. auto.
  - cbn [led_process_thread].
    assert (H : exists m1 out, led_process_iteration z m = (Continue m1, out)
                               /\ indicator_state m1 = indicator_state m).
    { destruct (Z.ltb_spec (battery (indicator_state m)) 10) as [L|G].
      - rewrite led_process_iteration_low_battery by assumption. cbv zeta.
        destruct (tick_of m mod 32 =? 15); [|destruct (tick_of m mod 32 =? 31)];
          eexists; eexists; split; reflexivity.
      - rewrite led_process_iteration_lock by assumption. cbv zeta.
        eexists; eexists; split; reflexivity. }
    destruct H as (m1 & out & -> & Hi).
    destruct (IH m1) as [Hl Hs]; [now rewrite Hi|].
    destruct (led_process_thread zs m1) as [r1 out1]. cbn [fst snd] in *.
    split; [exact Hl|]. now rewrite Hs.
Qed.

Lemma idle_iteration_bits (z : zmk_t) (m : machine) :
  connection (indicator_state m) = 0 ->
  map call_bits (snd (led_process_iteration z m))
  = if battery (indicator_state m) <? 10 then spec_battery_bits (tick_of m)
    else spec_lock_bits (indicator_state m).
Proof.
  intros Hc. destruct (Z.ltb_spec (battery (indicator_state m)) 10) as [L|G].
  - rewrite led_process_iteration_low_battery by assumption.
    unfold spec_battery_bits. cbv zeta.
    destruct (tick_of m mod 32 =? 15); [|destruct (tick_of m mod 32 =? 31)];
      cbn [snd]; rewrite ?set_indicator_color_bits; reflexivity.
  - rewrite led_process_iteration_lock by assumption.
    cbv zeta. cbn [snd]. now rewrite set_indicator_color_bits.
Qed.

(** C4.  In BLE mode with a usable slot the loop goes on, and the
    indicator state changes only on 16-tick boundaries: there [flash_times]
    goes down by one (modulo 256) and, if that makes it 0, [connection]
    becomes Idle.  So while fewer boundaries have passed than the counter
    allows the mode is kept; the boundary that brings the counter to 0
    resets [connection], and from then on, with no event in between, every
    iteration finds [connection] Idle and renders what the low-battery or
    the lock branch renders. *)
Theorem flash_times_countdown (z : zmk_t) (m : machine) :
  wf m ->
  connection (indicator_state m) <> 0 ->
  active_device (indicator_state m) < 3 ->
  let st := indicator_state m in
  let s := led_timer_steps m in
  let after (r : loop_result * list color_call) :=
    indicator_state (result_machine (fst r)) in
  still_looping (fst (led_process_iteration z m)) = true
  /\ (boundary16 (tick_of m) = true ->
      after (led_process_iteration z m)
      = let f := u8 (flash_times st - 1) in
        mk_indicator_state (keylock st) (if f =? 0 then 0 else connection st)
                           (active_device st) (battery st) f)
  /\ (boundary16 (tick_of m) = false -> after (led_process_iteration z m) = st)
  /\ (forall zs,
        let b := boundaries s (Z.of_nat (length zs)) in
        b < remaining (flash_times st) ->
        after (led_process_thread zs m) = set_flash_times (u8 (flash_times st - b)) st)
  /\ (forall zs z',
        let n := Z.of_nat (length zs) in
        boundaries s n = remaining (flash_times st) - 1 ->
        boundary16 (u16 (s + n + 1)) = true ->
        let m' := result_machine (fst (led_process_thread (zs ++ [z']) m)) in
        indicator_state m' = set_connection 0 (set_flash_times 0 st)
        /\ forall zs' z'',
            let r' := led_process_thread zs' m' in
            still_looping (fst r') = true
            /\ after r' = indicator_state m'
            /\ map call_bits (snd (led_process_iteration z'' (result_machine (fst r'))))
               = if battery st <? 10
                 then spec_battery_bits (tick_of (result_machine (fst r')))
                 else spec_lock_bits st).
Proof.
  intros Hwf Hc Ha st s after.
  assert (Hwf' := Hwf). destruct Hwf' as [(Hk & Hcc & Had & Hbt & Hf) Hs].
  assert (Hit := led_process_iteration_ble z m). cbv zeta in Hit.
  rewrite Hit by lia. clear Hit.
  split; [now destruct (boundary16 (tick_of m))|].
  split; [|split; [|split]].
  - intros ->. unfold after. cbn [fst result_machine indicator_state with_state].
    unfold spec_ble_decrement. fold st. cbv zeta.
    destruct (u8 (flash_times st - 1) =? 0); reflexivity.
  - intros ->. reflexivity.
  - intros zs b Hb. unfold after.
    now destruct (ble_run_before zs m Hwf Hc Ha Hb) as (_ & Hi & _).
  - intros zs z' n Hb Hb16 m'.
    destruct (ble_run_exit zs z' m Hwf Hc Ha Hb Hb16) as (_ & Hi & _).
    fold m' in Hi. split; [exact Hi|].
    intros zs' z'' r'.
    assert (Hc' : connection (indicator_state m') = 0) by now rewrite Hi.
    destruct (idle_run zs' m' Hc') as [Hl Hs'].
    fold r' in Hl, Hs'. split; [exact Hl|]. split; [exact Hs'|].
    rewrite idle_iteration_bits by (rewrite Hs'; exact Hc').
    rewrite Hs', Hi. reflexivity.
Qed.

Lemma flash_times_countdown_witness :
  let m := mk_machine (mk_indicator_state 0 1 0 50 1) 14 0 in
  indicator_state
    (result_machine (fst (led_process_iteration (mk_zmk 0 0 false BT_ADDR_LE_ANY) m)))
  = mk_indicator_state 0 0 0 50 0.
Proof.
  intros m.
  refine (proj1 (proj2 (flash_times_countdown
                          (mk_zmk 0 0 false BT_ADDR_LE_ANY) m _ _ _)) _).
  - unfold wf, wf_state. cbn. lia.
  - cbn. lia.
  - cbn. lia.
  - reflexivity.
Defined.

(** C10, as amended.  [flash_times] is decremented modulo 256 before it is
    compared with 0.  A BLE-mode boundary that finds it at 0 therefore
    leaves it at 255 and does not reset [connection]; the mode then lasts
    for 256 boundaries in all, the wrapping one and 255 more, and it is the
    256th that resets [connection].  The machine the startup task leaves
    behind is in that situation, so with no profile event in between the
    boot animation covers 256 boundaries, not 60. *)
Theorem flash_times_zero_wraps (z : zmk_t) (m : machine) :
  wf m ->
  connection (indicator_state m) <> 0 ->
  active_device (indicator_state m) < 3 ->
  flash_times (indicator_state m) = 0 ->
  let st := indicator_state m in
  let s := led_timer_steps m in
  let after (r : loop_result * list color_call) :=
    indicator_state (result_machine (fst r)) in
  (boundary16 (tick_of m) = true ->
     after (led_process_iteration z m) = set_flash_times 255 st)
  /\ (forall zs,
        let b := boundaries s (Z.of_nat (length zs)) in
        b <= 255 ->
        after (led_process_thread zs m) = set_flash_times (u8 (- b)) st
        /\ (connection st <> 2 ->
            Z.of_nat (length (snd (led_process_thread zs m))) = b))
  /\ (forall zs z',
        let n := Z.of_nat (length zs) in
        boundaries s n = 255 ->
        boundary16 (u16 (s + n + 1)) = true ->
        after (led_process_thread (zs ++ [z']) m)
        = set_connection 0 (set_flash_times 0 st)
        /\ (connection st <> 2 ->
            Z.of_nat (length (snd (led_process_thread (zs ++ [z']) m))) = 256))
  /\ ble_mode_ends_at m 256
  /\ (forall m60, wf m60 -> connection (indicator_state m60) <> 0 ->
      active_device (indicator_state m60) < 3 ->
      flash_times (indicator_state m60) = 60 -> ble_mode_ends_at m60 60)
  /\ (mach (fst (step (z, InitThread) boot)) = started_machine
      /\ wf started_machine
      /\ indicator_state started_machine = mk_indicator_state 0 1 0 111 0).
Proof.
  intros Hwf Hc Ha Hf0 st s after.
  assert (Hwf' := Hwf). destruct Hwf' as [(Hk & Hcc & Had & Hbt & Hf) Hs].
  assert (HR : remaining (flash_times st) = 256)
    by (unfold st; rewrite Hf0; reflexivity).
  split; [|split; [|split; [|split; [|split]]]].
  - intros Hb. unfold after. rewrite led_process_iteration_ble by lia.
    cbv zeta. rewrite Hb. cbn [fst result_machine indicator_state with_state].
    unfold spec_ble_decrement. rewrite Hf0. reflexivity.
  - intros zs b Hb.
    destruct (ble_run_before zs m Hwf Hc Ha) as (_ & Hi & _ & Hcnt).
    { fold st s b. rewrite HR. lia. }
    fold st s b in Hi, Hcnt. unfold after. rewrite Hi.
    unfold st at 1. rewrite Hf0. split; [reflexivity|exact Hcnt].
  - intros zs z' n Hb Hb16.
    destruct (ble_run_exit zs z' m Hwf Hc Ha) as (_ & Hi & _ & Hcnt).
    { fold st s n. rewrite HR, Hb. reflexivity. }
    { exact Hb16. }
    fold st in Hi, Hcnt. rewrite HR in Hcnt. split; [exact Hi|exact Hcnt].
  - intros zs z' n Hb Hb16.
    destruct (ble_run_exit zs z' m Hwf Hc Ha) as (_ & Hi & _).
    { fold st. rewrite HR. exact Hb. }
    { exact Hb16. }
    now rewrite Hi.
  - intros m60 Hwf60 Hc60 Ha60 Hf60 zs z' n Hb Hb16.
    destruct (ble_run_exit zs z' m60 Hwf60 Hc60 Ha60) as (_ & Hi & _).
    { rewrite Hf60. exact Hb. }
    { exact Hb16. }
    now rewrite Hi.
  - split; [reflexivity|]. split; [|reflexivity].
    unfold wf, wf_state. cbn. lia.
Qed.

Lemma flash_times_zero_wraps_witness :
  let z := mk_zmk 0 0 false BT_ADDR_LE_ANY in
  Z.of_nat (length (snd (led_process_thread (repeat z 4094 ++ [z]) started_machine)))
  = 256.
Proof.
  intros z.
  refine (proj2 (proj1 (proj2 (proj2 (flash_times_zero_wraps z started_machine
            _ _ _ _))) (repeat z 4094) z _ _) _).
  - unfold wf, wf_state. cbn. lia.
  - cbn. lia.
  - cbn. lia.
  - reflexivity.
  - vm_compute. reflexivity.
  - vm_compute. reflexivity.
  - cbn. lia.
Defined.

(** C10 as stated fails on the number: started by the startup task alone,
    the loop is still in Pairing after its 255th boundary (tick 4079, with
    [flash_times] at 1), so the boot animation does not last 255
    quarter-cycles. *)
Lemma boot_animation_outlasts_255_boundaries :
  ~ ble_mode_ends_at started_machine 255.
Proof.
  intros H.
  specialize (H (repeat (mk_zmk 0 0 false BT_ADDR_LE_ANY) 4078)
                (mk_zmk 0 0 false BT_ADDR_LE_ANY)).
  vm_compute in H. specialize (H eq_refl eq_refl). discriminate H.
Qed.

(** * Beyond the claims: what every iteration looks like *)

Lemma profile_color_bits_in (a : Z) :
  a < 3 -> In (profile_color_bits a) [3; 6; 5].
Proof.
  intros H. unfold profile_color_bits.
  destruct (Z.to_nat a) as [|[|[|n]]] eqn:E; cbn; auto. lia.
Qed.

Lemma set_indicator_color_shape (b : Z) (m : machine) :
  In b palette_masks -> call_shape (last_bits m) (set_indicator_color b m).
Proof.
  intros Hb. right. exists b. split; [exact Hb|].
  rewrite set_indicator_color_state. split; [|reflexivity].
  unfold set_indicator_color.
  destruct (b =? last_bits m); cbn [negb snd map]; [reflexivity|].
  now rewrite !led_write_spec by lia.
Qed.

(** An iteration makes no colour-setter call and keeps [last_bits], or makes
    one call, with a mask of the palette, which becomes [last_bits]. *)
Lemma led_process_iteration_shape (z : zmk_t) (m : machine) :
  call_shape (last_bits m)
    (result_machine (fst (led_process_iteration z m)),
     snd (led_process_iteration z m)).
Proof.
  destruct m as [[kl c a bat f] t l].
  unfold led_process_iteration, no_call, with_state, with_steps.
  cbn [indicator_state led_timer_steps last_bits
       keylock connection active_device battery flash_times].
  assert (Hset : forall b st, In b palette_masks ->
             call_shape l (set_indicator_color b (mk_machine st (u16 (t + 1)) l)))
    by (intros b st Hb; now apply (set_indicator_color_shape b (mk_machine st _ l))).
  assert (Hnone : forall st, call_shape l (mk_machine st (u16 (t + 1)) l, []))
    by (intros st; left; split; reflexivity).
  assert (Hlet : forall (mo : machine * list color_call)
                        (k : machine -> machine),
             (forall m1, last_bits (k m1) = last_bits m1) ->
             call_shape l mo ->
             forall cnd : machine -> bool,
             call_shape l
               (result_machine (fst (let '(m1, out) := mo in
                                     if cnd m1 then (Continue (k m1), out)
                                     else (Continue m1, out))),
                snd (let '(m1, out) := mo in
                     if cnd m1 then (Continue (k m1), out)
                     else (Continue m1, out)))).
  { intros [m1 out] k Hk H cnd. destruct (cnd m1); cbn [fst snd result_machine].
    - destruct H as [[Ho Hl]|(b & Hb & Ho & Hl)]; cbn [fst snd] in *.
      + left. cbn [fst snd]. now rewrite Hk.
      + right. exists b. cbn [fst snd]. now rewrite Hk.
    - exact H. }
  destruct (0 <? c).
  - destruct (Z.leb_spec 3 a) as [Ha|Ha]; [apply Hnone|].
    destruct (Z.land (u16 (t + 1)) 15 =? 15); [|apply Hnone].
    assert (Hp : In (profile_color_bits a) palette_masks).
    { destruct (profile_color_bits_in a Ha) as [<-|[<-|[<-|[]]]]; cbn; auto 10. }
    apply (Hlet _ (fun m1 => mk_machine (set_connection 0 (indicator_state m1))
                                        (led_timer_steps m1) (last_bits m1)));
      [reflexivity|].
    destruct (Z.land (Z.shiftr (u16 (t + 1)) 4) 3) as [|[[|[]|]|[|[]|]|]|];
      cbn [connection active_device set_flash_times];
      repeat match goal with
        | |- context [if ?c then _ else _] => destruct c
        end;
      first [ apply Hnone | apply Hset; cbn; auto 10 | apply Hset; exact Hp ].
  - destruct (bat <? 10).
    + destruct (Z.land (u16 (t + 1)) 31 =? 15);
        [|destruct (Z.land (u16 (t + 1)) 31 =? 31)]; [| |apply Hnone].
      * specialize (Hset 1 (mk_indicator_state kl c a bat f)).
        destruct (set_indicator_color 1 _). apply Hset. cbn; auto.
      * specialize (Hset 0 (mk_indicator_state kl c a bat f)).
        destruct (set_indicator_color 0 _). apply Hset. cbn; auto.
    + destruct (negb (Z.land kl CAPSLOCK_BIT =? 0)).
      * specialize (Hset 5 (mk_indicator_state kl c a bat f)).
        destruct (set_indicator_color 5 _). apply Hset. cbn; auto 10.
      * specialize (Hset 0 (mk_indicator_state kl c a bat f)).
        destruct (set_indicator_color 0 _). apply Hset. cbn; auto.
Qed.

(** X3.  Whatever the state, one pass through the loop body calls the colour
    setter at most once, only with one of the masks 0, 1, 3, 4, 5, 6 (never
    green alone, never white), and so issues either no driver call or
    exactly three. *)
Theorem iteration_renders_at_most_once (z : zmk_t) (m : machine) :
  let out := snd (led_process_iteration z m) in
  (length out <= 1)%nat
  /\ (forall c, In c out -> In (call_bits c) palette_masks)
  /\ (length (hw_writes out) = 0%nat \/ length (hw_writes out) = 3%nat).
Proof.
  cbv zeta.
  destruct (led_process_iteration_shape z m) as [[Ho _]|(b & Hb & Ho & _)];
    cbn [fst snd] in Ho; rewrite Ho.
  - cbn. repeat split; auto. intros c [].
  - repeat split.
    + cbn. lia.
    + intros c [<-|[]]. exact Hb.
    + destruct (b =? last_bits m); cbn; auto.
Qed.

(** * Beyond the claims: the LEDs and the memo *)

Lemma call_shape_leds (l : Z) (mo : machine * list color_call) (lit : leds) :
  call_shape l mo ->
  lit = leds_of_mask l ->
  leds_after (hw_writes (snd mo)) lit = leds_of_mask (last_bits (fst mo)).
Proof.
  intros [[Ho Hl]|(b & _ & Ho & Hl)] ->; rewrite Ho, Hl.
  - reflexivity.
  - destruct (Z.eqb_spec b l) as [E|_]; [rewrite E; reflexivity|].
    unfold hw_writes, spec_write, leds_of_mask, leds_after.
    cbn [flat_map call_hw app].
    destruct (Z.testbit b 0), (Z.testbit b 1), (Z.testbit b 2); reflexivity.
Qed.

Lemma call_shape_last (l : Z) (mo : machine * list color_call) :
  call_shape l mo ->
  last (map call_bits (snd mo)) l = last_bits (fst mo).
Proof.
  intros [[Ho Hl]|(b & _ & Ho & Hl)]; rewrite Ho, Hl; reflexivity.
Qed.

Lemma last_cons_default {A : Type} (x : A) (l : list A) (d d' : A) :
  last (x :: l) d = last (x :: l) d'.
Proof.
  revert x. induction l as [|y l IH]; intros x; [reflexivity|].
  change (last (y :: l) d = last (y :: l) d'). apply IH.
Qed.

Lemma last_app_default {A : Type} (l1 l2 : list A) (d : A) :
  last (l1 ++ l2) d = last l2 (last l1 d).
Proof.
  induction l1 as [|x l1 IH]; [reflexivity|].
  destruct l1 as [|y l1].
  - destruct l2 as [|y l2]; [reflexivity|].
    change (last (y :: l2) d = last (y :: l2) x). apply last_cons_default.
  - change (last ((y :: l1) ++ l2) d = last l2 (last (y :: l1) d)). exact IH.
Qed.

Lemma hw_writes_app (a b : list color_call) :
  hw_writes (a ++ b) = hw_writes a ++ hw_writes b.
Proof. apply flat_map_app. Qed.

Lemma step_shape (zi : zmk_t * input) (s : system) :
  call_shape (last_bits (mach s)) (mach (fst (step zi s)), snd (step zi s)).
Proof.
  destruct zi as [z [eh| |]]; unfold step.
  - left. split; reflexivity.
  - left. split; reflexivity.
  - destruct (led_process_alive s); [|left; split; reflexivity].
    pose proof (led_process_iteration_shape z (mach s)) as H.
    destruct (led_process_iteration z (mach s)) as [[m'|m'] out]; exact H.
Qed.

(** X4.  The memo of the colour setter is sound.  If the LEDs show the mask
    in [last_bits] (as they do at boot: all dark, mask 0), then after any
    sequence of events and ticks they still do, and that mask is the one of
    the last colour-setter call: suppressing the writes of a repeated mask
    never leaves the LEDs in another state than the one asked for last. *)
Theorem leds_show_last_mask (zis : list (zmk_t * input)) (s : system) (lit : leds) :
  lit = leds_of_mask (last_bits (mach s)) ->
  let r := run zis s in
  leds_after (hw_writes (snd r)) lit = leds_of_mask (last_bits (mach (fst r)))
  /\ last (map call_bits (snd r)) (last_bits (mach s)) = last_bits (mach (fst r)).
Proof.
  revert s lit. induction zis as [|zi rest IH]; intros s lit Hlit; cbv zeta.
  - cbn. auto.
  - cbn [run]. pose proof (step_shape zi s) as Hs.
    destruct (step zi s) as [s1 out1]. cbn [fst snd] in Hs.
    pose proof (call_shape_leds _ _ lit Hs Hlit) as Hl1.
    pose proof (call_shape_last _ _ Hs) as Hb1. cbn [fst snd] in Hl1, Hb1.
    specialize (IH s1 (leds_after (hw_writes out1) lit) Hl1). cbv zeta in IH.
    destruct (run rest s1) as [s2 out2]. cbn [fst snd] in *.
    destruct IH as [IHl IHb]. split.
    + rewrite hw_writes_app. unfold leds_after in *. now rewrite fold_left_app.
    + now rewrite map_app, last_app_default, Hb1.
Qed.

Lemma leds_show_last_mask_witness :
  let z := mk_zmk 2 0 false BT_ADDR_LE_ANY in
  let zis := [(z, InitThread); (z, Event zmk_hid_indicators_changed)]
             ++ repeat (z, Tick) 40 in
  leds_after (hw_writes (snd (run zis boot))) (mk_leds false false false)
  = leds_of_mask (last_bits (mach (fst (run zis boot)))).
Proof.
  intros z zis.
  refine (proj1 (leds_show_last_mask zis boot (mk_leds false false false) _)).
  reflexivity.
Defined.

(** * Beyond the claims: what the loop leaves alone *)

Lemma led_process_iteration_frame (z : zmk_t) (m : machine) :
  let st := indicator_state m in
  let m' := result_machine (fst (led_process_iteration z m)) in
  let st' := indicator_state m' in
  keylock st' = keylock st
  /\ active_device st' = active_device st
  /\ battery st' = battery st
  /\ (connection st' = connection st \/ connection st' = 0)
  /\ (flash_times st' = flash_times st \/ flash_times st' = u8 (flash_times st - 1))
  /\ led_timer_steps m' = tick_of m.
Proof.
  destruct m as [[kl c a bat f] t l]. cbv zeta.
  unfold led_process_iteration, no_call, tick_of.
  cbn [indicator_state led_timer_steps with_steps].
  destruct (0 <? connection _).
  - destruct (3 <=? active_device _); [cbn; auto 10|].
    destruct (Z.land _ 15 =? 15); [|cbn; auto 10].
    destruct (Z.land (Z.shiftr _ 4) 3) as [|[[|[]|]|[|[]|]|]|];
      repeat match goal with
        | |- context [if negb ?c then _ else _] => destruct c; cbn [negb]
        | |- context [if bt_addr_le_eq ?a ?b then _ else _] =>
            destruct (bt_addr_le_eq a b)
        end;
      name_color_calls set_indicator_color_state;
      cbn [indicator_state with_last_bits with_state set_flash_times flash_times];
      destruct (u8 (f - 1) =? 0); cbn; auto 10.
  - destruct (battery _ <? 10).
    + destruct (Z.land _ 31 =? 15); [|destruct (Z.land _ 31 =? 31)];
        name_color_calls set_indicator_color_state; cbn; auto 10.
    + destruct (negb _); name_color_calls set_indicator_color_state; cbn; auto 10.
Qed.

(** X2.  The loop on its own, for any number of iterations and from any
    state, never writes [keylock], [battery] or [active_device], and the only
    value it ever gives [connection] is 0: BLE mode is entered through a
    listener or the startup task, never by the loop. *)
Theorem loop_only_clears_connection (zs : list zmk_t) (m : machine) :
  let st := indicator_state m in
  let st' := indicator_state (result_machine (fst (led_process_thread zs m))) in
  keylock st' = keylock st
  /\ active_device st' = active_device st
  /\ battery st' = battery st
  /\ (connection st' = connection st \/ connection st' = 0).
Proof.
  revert m. induction zs as [|z zs IH]; intros m; cbv zeta.
  - cbn. auto.
  - cbn [led_process_thread].
    destruct (led_process_iteration_frame z m) as (Hk & Ha & Hb & Hc & _).
    destruct (led_process_iteration z m) as [[m1|m1] out];
      cbn [fst result_machine] in *; [|auto].
    specialize (IH m1). cbv zeta in IH. destruct IH as (Ik & Ia & Ib & Ic).
    destruct (led_process_thread zs m1) as [r1 out1]. cbn [fst] in *.
    rewrite Ik, Ia, Ib, Hk, Ha, Hb. repeat split.
    destruct Ic as [Ic|Ic]; rewrite Ic; auto.
Qed.

(** * Beyond the claims: the module among its callers *)

Lemma step_fields (zi : zmk_t * input) (s : system) :
  let st := indicator_state (mach s) in
  let st' := indicator_state (mach (fst (step zi s))) in
  keylock st' = keylock_step (keylock st) zi
  /\ battery st' = battery_step (battery st) zi
  /\ active_device st' = active_device_step (active_device st) zi.
Proof.
  destruct zi as [z [eh| |]]; cbv zeta;
    unfold step, keylock_step, battery_step, active_device_step; cbn [fst snd].
  - destruct eh as [| |key|soc]; cbn [mach indicator_state with_state dispatch].
    + repeat split; destruct (3 <? _); reflexivity.
    + unfold ble_active_profile_update_cb, ble_active_profile_update.
      destruct (3 <? _); [auto|].
      destruct (zmk_ble_active_profile_is_connected z); auto.
    + unfold keycode_user_listener, zmk_handle_keycode_user,
        ble_active_profile_update. cbn [as_zmk_keycode_state_changed fst].
      destruct (key =? 171); [|auto].
      destruct (3 <? _); [auto|].
      destruct (zmk_ble_active_profile_is_connected z); auto.
    + repeat split; destruct (3 <? _); reflexivity.
  - repeat split; destruct (3 <? _); reflexivity.
  - destruct (led_process_alive s); [|auto].
    destruct (led_process_iteration_frame z (mach s)) as (Hk & Ha & Hb & _).
    destruct (led_process_iteration z (mach s)) as [[m'|m'] out];
      cbn [fst result_machine mach] in *; auto.
Qed.

(** X10.  Along any sequence of events, startup-task runs and ticks, the
    fields [keylock], [battery] and [active_device] are what the inputs
    alone make of them: [keylock] is the low byte of the last HID report,
    [battery] the low byte of the last battery report (or 111 if the
    startup task ran after it), [active_device] the last profile index of at
    most 3 that a profile event or keycode 0xAB brought in.  Ticks, and the
    events of the other kinds, leave each of them as it was. *)
Theorem fields_follow_their_events (zis : list (zmk_t * input)) (s : system) :
  let st := indicator_state (mach s) in
  let st' := indicator_state (mach (fst (run zis s))) in
  keylock st' = keylock_after zis (keylock st)
  /\ battery st' = battery_after zis (battery st)
  /\ active_device st' = active_device_after zis (active_device st).
Proof.
  revert s. induction zis as [|zi rest IH]; intros s; cbv zeta.
  - cbn. auto.
  - cbn [run]. destruct (step_fields zi s) as (Hk & Hb & Ha).
    destruct (step zi s) as [s1 out1]. cbn [fst] in *.
    specialize (IH s1). cbv zeta in IH. destruct IH as (Ik & Ib & Ia).
    destruct (run rest s1) as [s2 out2]. cbn [fst] in *.
    unfold keylock_after, battery_after, active_device_after in *.
    cbn [fold_left]. rewrite <- Hk, <- Hb, <- Ha. auto.
Qed.

Lemma step_reach_inv (zi : zmk_t * input) (s : system) :
  reach_inv s -> reach_inv (fst (step zi s)).
Proof.
  intros ([(Hk & Hc & Ha & Hb & Hf) Ht] & Hc2 & Ha3 & Hl).
  assert (Hu : forall x, 0 <= u8 x < 256)
    by (intros x; unfold u8; apply Z.mod_pos_bound; lia).
  destruct zi as [z [eh| |]]; unfold step, reach_inv, wf, wf_state.
  - destruct eh as [| |key|soc];
      cbn [fst mach indicator_state with_state dispatch led_timer_steps last_bits].
    + cbn. pose proof (Hu (zmk_hid_indicators_get_current_profile z)). auto 10.
    + unfold ble_active_profile_update_cb, ble_active_profile_update.
      pose proof (Hu (zmk_ble_active_profile_index z)).
      destruct (Z.ltb_spec 3 (u8 (zmk_ble_active_profile_index z))); [auto 10|].
      destruct (zmk_ble_active_profile_is_connected z); cbn;
        repeat split; auto; lia.
    + unfold keycode_user_listener, zmk_handle_keycode_user,
        ble_active_profile_update. cbn [as_zmk_keycode_state_changed fst].
      pose proof (Hu (zmk_ble_active_profile_index z)).
      destruct (key =? 171); [|auto 10].
      destruct (Z.ltb_spec 3 (u8 (zmk_ble_active_profile_index z))); [auto 10|].
      destruct (zmk_ble_active_profile_is_connected z); cbn;
        repeat split; auto; lia.
    + cbn. pose proof (Hu soc). auto 10.
  - cbn. repeat split; auto; lia.
  - pose proof (step_shape (z, Tick) s) as Hs. unfold step in Hs.
    destruct (led_process_alive s).
    + destruct (led_process_iteration_frame z (mach s))
        as (Fk & Fa & Fb & Fc & Ff & Fs).
      destruct (led_process_iteration z (mach s)) as [[m'|m'] out];
        cbn [fst snd result_machine mach] in *.
      all: assert (Hc' : 0 <= connection (indicator_state m') <= 2)
          by (destruct Fc as [E|E]; rewrite E; lia).
      all: assert (Hf' : 0 <= flash_times (indicator_state m') < 256)
          by (destruct Ff as [E|E]; rewrite E; [lia|apply Hu]).
      all: assert (Hl' : In (last_bits m') palette_masks)
          by (destruct Hs as [[_ E]|(b & Hb' & _ & E)]; cbn [fst] in E;
              rewrite E; assumption).
      all: assert (Hs' : 0 <= led_timer_steps m' < 65536)
          by (rewrite Fs; unfold tick_of, u16; apply Z.mod_pos_bound; lia).
      all: repeat split; try assumption; lia.
    + cbn [fst mach]. repeat split; try assumption; lia.
Qed.

(** X1.  Every state the module can reach stays within bounds: if each
    field fits its unsigned type, [connection] is at most 2, [active_device]
    at most 3 and [last_bits] is a palette mask, then the same holds after
    any sequence of events, startup-task runs and ticks.  The
    zero-initialised module at boot is such a state. *)
Theorem reachable_states_stay_in_range (zis : list (zmk_t * input)) (s : system) :
  reach_inv s -> reach_inv (fst (run zis s)).
Proof.
  revert s. induction zis as [|zi rest IH]; intros s H; [exact H|].
  cbn [run]. pose proof (step_reach_inv zi s H) as H1.
  destruct (step zi s) as [s1 out1]. cbn [fst] in H1.
  specialize (IH s1 H1). now destruct (run rest s1).
Qed.

Lemma reachable_states_stay_in_range_witness :
  reach_inv (fst (run [(mk_zmk 2 3 true BT_ADDR_LE_ANY, InitThread);
                       (mk_zmk 2 3 true BT_ADDR_LE_ANY,
                        Event (zmk_keycode_state_changed 171));
                       (mk_zmk 2 3 true BT_ADDR_LE_ANY, Tick)] boot)).
Proof.
  apply reachable_states_stay_in_range.
  unfold reach_inv, wf, wf_state. cbn. repeat split; lia.
Defined.

(** * Beyond the claims: the BLE profile update *)

(** X5.  Profile updates compose as "the last accepted one wins": repeating
    an update changes nothing more; an update whose index is at most 3
    overwrites whatever an earlier update left; and one whose index is above
    3 leaves the result of the earlier update in place. *)
Theorem ble_active_profile_update_last_wins (z1 z2 : zmk_t) (st : indicator_state_t) :
  ble_active_profile_update z1 (ble_active_profile_update z1 st)
  = ble_active_profile_update z1 st
  /\ (u8 (zmk_ble_active_profile_index z2) <= 3 ->
      ble_active_profile_update z2 (ble_active_profile_update z1 st)
      = ble_active_profile_update z2 st)
  /\ (3 < u8 (zmk_ble_active_profile_index z2) ->
      ble_active_profile_update z2 (ble_active_profile_update z1 st)
      = ble_active_profile_update z1 st).
Proof.
  unfold ble_active_profile_update.
  split; [|split].
  - destruct (3 <? u8 (zmk_ble_active_profile_index z1)); [reflexivity|].
    destruct (zmk_ble_active_profile_is_connected z1); reflexivity.
  - intros H. apply Z.ltb_ge in H. rewrite H.
    destruct (3 <? u8 (zmk_ble_active_profile_index z1)); [reflexivity|].
    destruct (zmk_ble_active_profile_is_connected z1),
             (zmk_ble_active_profile_is_connected z2); reflexivity.
  - intros H. apply Z.ltb_lt in H. now rewrite H.
Qed.

Lemma ble_active_profile_update_last_wins_witness :
  let st := mk_indicator_state 2 0 0 50 0 in
  ble_active_profile_update (mk_zmk 0 1 true BT_ADDR_LE_ANY)
    (ble_active_profile_update (mk_zmk 0 2 false BT_ADDR_LE_ANY) st)
  = mk_indicator_state 2 2 1 50 12
  /\ ble_active_profile_update (mk_zmk 0 7 true BT_ADDR_LE_ANY)
       (ble_active_profile_update (mk_zmk 0 2 false BT_ADDR_LE_ANY) st)
     = mk_indicator_state 2 1 2 50 60.
Proof.
  intros st. split.
  - refine (eq_trans (proj1 (proj2 (ble_active_profile_update_last_wins
              (mk_zmk 0 2 false BT_ADDR_LE_ANY) (mk_zmk 0 1 true BT_ADDR_LE_ANY) st))
              _) _); [cbn; lia|reflexivity].
  - refine (eq_trans (proj2 (proj2 (ble_active_profile_update_last_wins
              (mk_zmk 0 2 false BT_ADDR_LE_ANY) (mk_zmk 0 7 true BT_ADDR_LE_ANY) st))
              _) _); [cbn; lia|reflexivity].
Defined.

(** X6.  The listener lets profile index 3 through (its guard is [> 3]) but
    the loop stops on it (its guard is [>= 3]).  So while the blink thread
    is alive, a profile-changed event, or keycode 0xAB, that reads index 3
    makes the very next tick return from the loop without rendering, and
    nothing is rendered ever after. *)
Theorem profile_index_three_stops_the_loop (z1 z2 : zmk_t) (s : system) :
  led_process_alive s = true ->
  u8 (zmk_ble_active_profile_index z1) = 3 ->
  forall eh, eh = zmk_ble_active_profile_changed \/ eh = zmk_keycode_state_changed 0xAB ->
  let r := run [(z1, Event eh); (z2, Tick)] s in
  snd r = []
  /\ led_process_alive (fst r) = false
  /\ active_device (indicator_state (mach (fst r))) = 3
  /\ forall zis, snd (run zis (fst r)) = [].
Proof.
  intros Hal H3 eh Heh.
  assert (Hup : dispatch eh z1 (indicator_state (mach s))
                = ble_active_profile_update z1 (indicator_state (mach s)))
    by (destruct Heh as [-> | ->]; reflexivity).
  cbv zeta. cbn [run step]. rewrite Hal, Hup.
  cbn [mach led_process_alive].
  set (m1 := with_state _ (mach s)).
  assert (Hst : 0 < connection (indicator_state m1)
                /\ active_device (indicator_state m1) = 3).
  { unfold m1, ble_active_profile_update. rewrite H3. cbn [Z.ltb Z.compare].
    destruct (zmk_ble_active_profile_is_connected z1); cbn; lia. }
  destruct Hst as [Hc Ha].
  rewrite led_process_iteration_halt by lia.
  cbn [fst snd app mach led_process_alive indicator_state with_steps].
  repeat split.
  - exact Ha.
  - intros zis. now apply run_after_return.
Qed.

Lemma profile_index_three_stops_the_loop_witness :
  let z := mk_zmk 0 3 false BT_ADDR_LE_ANY in
  led_process_alive
    (fst (run [(z, Event zmk_ble_active_profile_changed); (z, Tick)] boot)) = false.
Proof.
  intros z.
  refine (proj1 (proj2 (profile_index_three_stops_the_loop z z boot
                          _ _ zmk_ble_active_profile_changed _))).
  - reflexivity.
  - reflexivity.
  - left. reflexivity.
Defined.

(** X7.  A profile update that reads a slot below 3 starts an animation of
    known length whatever [flash_times] was before: 12 boundaries when the
    profile is connected, 60 when it is not.  Left to itself the loop keeps
    the connection state the update set while fewer boundaries than that
    have passed, and resets it to Idle on exactly that boundary. *)
Theorem profile_update_sets_animation_length (z : zmk_t) (m : machine) :
  wf m ->
  u8 (zmk_ble_active_profile_index z) <= 2 ->
  let m' := with_state (ble_active_profile_update z (indicator_state m)) m in
  let N := if zmk_ble_active_profile_is_connected z then 12 else 60 in
  let c := if zmk_ble_active_profile_is_connected z then 2 else 1 in
  (forall zs,
      boundaries (led_timer_steps m) (Z.of_nat (length zs)) < N ->
      still_looping (fst (led_process_thread zs m')) = true
      /\ connection (indicator_state (result_machine (fst (led_process_thread zs m'))))
         = c)
  /\ ble_mode_ends_at m' N.
Proof.
  intros Hwf Hi m' N c.
  destruct Hwf as [(Hk & Hc & Ha & Hb & Hf) Ht].
  assert (Hu : 0 <= u8 (zmk_ble_active_profile_index z) < 256)
    by (unfold u8; apply Z.mod_pos_bound; lia).
  assert (Hst : indicator_state m'
                = mk_indicator_state (keylock (indicator_state m)) c
                    (u8 (zmk_ble_active_profile_index z))
                    (battery (indicator_state m)) N).
  { unfold m', N, c, ble_active_profile_update. cbn [indicator_state with_state].
    assert (E : (3 <? u8 (zmk_ble_active_profile_index z)) = false)
      by (apply Z.ltb_ge; lia).
    rewrite E. now destruct (zmk_ble_active_profile_is_connected z). }
  assert (HN : N = 12 /\ c = 2 \/ N = 60 /\ c = 1)
    by (unfold N, c; destruct (zmk_ble_active_profile_is_connected z); auto).
  assert (Hwf' : wf m').
  { split; [|exact Ht]. rewrite Hst. unfold wf_state. cbn. lia. }
  assert (Hc' : connection (indicator_state m') <> 0) by (rewrite Hst; cbn; lia).
  assert (Ha' : active_device (indicator_state m') < 3) by (rewrite Hst; cbn; lia).
  assert (HR : remaining (flash_times (indicator_state m')) = N).
  { rewrite Hst. cbn [flash_times]. unfold remaining.
    destruct HN as [[-> _]|[-> _]]; reflexivity. }
  split.
  - intros zs Hbd.
    destruct (ble_run_before zs m' Hwf' Hc' Ha') as (Hl & Hs & _).
    { rewrite HR. exact Hbd. }
    split; [exact Hl|]. rewrite Hs, Hst. reflexivity.
  - intros zs z' n Hbd Hb16.
    destruct (ble_run_exit zs z' m' Hwf' Hc' Ha') as (_ & Hs & _).
    { rewrite HR. exact Hbd. }
    { exact Hb16. }
    now rewrite Hs.
Qed.

Lemma profile_update_sets_animation_length_witness :
  let z := mk_zmk 0 1 true BT_ADDR_LE_ANY in
  let m := mk_machine (mk_indicator_state 0 0 0 50 200) 0 0 in
  ble_mode_ends_at (with_state (ble_active_profile_update z (indicator_state m)) m) 12.
Proof.
  intros z m.
  refine (proj2 (profile_update_sets_animation_length z m _ _)).
  - unfold wf, wf_state. cbn. lia.
  - cbn. lia.
Defined.

(** * Beyond the claims: the tick counter and the lock bits *)

Lemma mod64_views (t1 t2 : Z) :
  t1 mod 64 = t2 mod 64 ->
  Z.land t1 15 = Z.land t2 15
  /\ Z.land t1 31 = Z.land t2 31
  /\ Z.land (Z.shiftr t1 4) 3 = Z.land (Z.shiftr t2 4) 3.
Proof.
  intros H. rewrite !land_15, !land_31, !shiftr4_land3. unfold phase.
  repeat split; Z.div_mod_to_equations; lia.
Qed.

(** X8.  The loop looks at its 16-bit tick counter only modulo 64, and the
    wrap from 65535 to 0 keeps the count modulo 64 going (65536 is a
    multiple of 64).  So two machines that differ only in the counter, with
    ticks congruent modulo 64, run the same iteration: the same calls, the
    same indicator state and [last_bits] afterwards; the blink pattern has
    no glitch when the counter overflows. *)
Theorem tick_counter_matters_modulo_64 (z : zmk_t) (m : machine) (s2 : Z) :
  let m2 := with_steps s2 m in
  (0 <= led_timer_steps m < 65536 ->
   tick_of m mod 64 = (led_timer_steps m + 1) mod 64)
  /\ (tick_of m mod 64 = tick_of m2 mod 64 ->
      led_process_iteration z m2
      = on_result (with_steps (tick_of m2)) (led_process_iteration z m)).
Proof.
  cbv zeta. split.
  - intros Hr. zmod.
  - intros H. destruct (mod64_views _ _ H) as (E15 & E31 & Eph).
    destruct m as [[kl c a bat f] t l].
    unfold tick_of in *. cbn [led_timer_steps with_steps] in *.
    unfold led_process_iteration, no_call.
    cbn [indicator_state led_timer_steps with_steps last_bits].
    rewrite <- E15, <- E31, <- Eph.
    cbn [connection active_device battery keylock flash_times].
    destruct (0 <? c).
    + destruct (3 <=? a); [reflexivity|].
      destruct (Z.land (u16 (t + 1)) 15 =? 15); [|reflexivity].
      destruct (Z.land (Z.shiftr (u16 (t + 1)) 4) 3) as [|[[|[]|]|[|[]|]|]|];
        cbv beta iota zeta delta
          [set_indicator_color with_state with_steps with_last_bits on_result
           fst snd negb set_flash_times set_connection
           indicator_state led_timer_steps last_bits
           keylock connection active_device battery flash_times];
        repeat match goal with
          | |- context [if ?c then _ else _] => destruct c
          end;
        reflexivity.
    + cbv beta iota zeta delta
        [set_indicator_color with_state with_steps with_last_bits on_result
         fst snd negb indicator_state led_timer_steps last_bits];
        repeat match goal with
          | |- context [if ?c then _ else _] => destruct c
          end;
        reflexivity.
Qed.

Lemma tick_counter_matters_modulo_64_witness :
  let z := mk_zmk 0 0 false BT_ADDR_LE_ANY in
  let m := mk_machine (mk_indicator_state 0 1 1 50 9) 65535 0 in
  tick_of m mod 64 = 0
  /\ led_process_iteration z (with_steps 63 m)
     = on_result (with_steps 64) (led_process_iteration z m).
Proof.
  intros z m. split.
  - refine (eq_trans (proj1 (tick_counter_matters_modulo_64 z m 63) _) _).
    + cbn. lia.
    + reflexivity.
  - refine (proj2 (tick_counter_matters_modulo_64 z m 63) _). reflexivity.
Defined.

(** X9.  Of the lock bits only caps lock (bit 1) is ever looked at: two
    [keylock] values that agree on bit 1 give the same iteration in every
    mode, so num lock and scroll lock are stored but never shown. *)
Theorem only_capslock_is_rendered (z : zmk_t) (m : machine) (k1 k2 : Z) :
  Z.testbit k1 1 = Z.testbit k2 1 ->
  led_process_iteration z (with_keylock k1 m)
  = on_result (with_keylock k1) (led_process_iteration z (with_keylock k2 m)).
Proof.
  intros H. destruct m as [[kl c a bat f] t l].
  unfold led_process_iteration, no_call, with_keylock.
  cbn [indicator_state led_timer_steps with_steps with_state last_bits
       set_keylock keylock connection active_device battery flash_times].
  unfold CAPSLOCK_BIT, BIT. rewrite !land_bit_testbit by lia. rewrite H.
  destruct (0 <? c).
  - destruct (3 <=? a); [reflexivity|].
    destruct (Z.land (u16 (t + 1)) 15 =? 15); [|reflexivity].
    destruct (Z.land (Z.shiftr (u16 (t + 1)) 4) 3) as [|[[|[]|]|[|[]|]|]|];
      cbv beta iota zeta delta
        [set_indicator_color with_state with_steps with_last_bits on_result
         fst snd negb set_flash_times set_connection set_keylock
         indicator_state led_timer_steps last_bits
         keylock connection active_device battery flash_times];
      repeat match goal with
        | |- context [if ?c then _ else _] => destruct c
        end;
      reflexivity.
  - cbv beta iota zeta delta
      [set_indicator_color with_state with_steps with_last_bits on_result
       fst snd negb set_keylock indicator_state led_timer_steps last_bits
       keylock connection active_device battery flash_times];
      repeat match goal with
        | |- context [if ?c then _ else _] => destruct c
        end;
      reflexivity.
Qed.

Lemma only_capslock_is_rendered_witness :
  let z := mk_zmk 0 0 false BT_ADDR_LE_ANY in
  let m := mk_machine (mk_indicator_state 0 0 0 50 0) 7 0 in
  snd (led_process_iteration z (with_keylock 7 m))
  = snd (led_process_iteration z (with_keylock 2 m)).
Proof.
  intros z m.
  rewrite (only_capslock_is_rendered z m 7 2 eq_refl).
  now destruct (led_process_iteration z (with_keylock 2 m)) as [[m'|m'] out].
Defined.
